(** * Hospital queue management: the queue engine and its broadcast

    A shallow embedding of [database.js] (the SQLite handler) and of the
    routes and WebSocket handlers of [server.js], followed by the
    properties of token allocation, position computation, status updates,
    patient recognition and event fan-out.

    Conventions of the embedding.
    - A point in time is a number of milliseconds since the epoch.  The
      calendar day ([toISOString().split('T')[0]] in JavaScript, [DATE(..)]
      in SQL, both in UTC) is the day number; the date text is an injective
      rendering of it, so comparing day numbers is comparing date texts.
    - Every [await]ed SQL statement is one atomic step on the store.  A
      statement that reads the clock takes the reading as an argument.
    - A field of a request body is either present or missing; a missing
      field is bound by the driver as SQL NULL.
    - Storage failures other than constraint violations are not modelled. *)

From Stdlib Require Import String Ascii List Bool NArith ZArith Lia.
From Stdlib Require Import DecimalString DecimalN DecimalPos.
From Stdlib Require Import Permutation Sorted.
Import ListNotations.

Local Open Scope string_scope.
Local Open Scope N_scope.

(* ================================================================== *)
(** ** JavaScript values and string helpers *)
(* ================================================================== *)

Module Js.

(** The primitive values that flow through the registration route. *)
Inductive jsval : Type :=
| JUndefined
| JNull
| JBool (b : bool)
| JNum (z : Z)
| JNaN
| JStr (s : string).

(** A plain object, as the driver builds one per result row: property
    names paired with values. *)
Definition jsobj : Type := list (string * jsval).

(** [o.k]: the value stored under [k], [undefined] when [o] has no such
    property. *)
Fixpoint js_get (o : jsobj) (k : string) : jsval :=
  match o with
  | [] => JUndefined
  | (k', v) :: rest => if String.eqb k' k then v else js_get rest k
  end.

(** [String(z)] for an integer. *)
Definition string_of_Z (z : Z) : string :=
  NilZero.string_of_int (Z.to_int z).

(** [v + k] for a numeric literal [k]: numeric addition after [ToNumber]
    of the left operand, concatenation when the left operand is a string. *)
Definition js_add_num (v : jsval) (k : Z) : jsval :=
  match v with
  | JNum z => JNum (z + k)
  | JUndefined => JNaN
  | JNaN => JNaN
  | JNull => JNum k
  | JBool b => JNum ((if b then 1 else 0) + k)
  | JStr s => JStr (s ++ string_of_Z k)
  end.

(** [String(n)] for a non-negative integer. *)
Definition String_of_number (n : N) : string :=
  NilZero.string_of_uint (N.to_uint n).

Fixpoint repeat_char (c : ascii) (k : nat) : string :=
  match k with
  | O => EmptyString
  | S k' => String c (repeat_char c k')
  end.

(** [s.padStart(targetLength, c)] for a one-character pad string. *)
Definition padStart (targetLength : nat) (c : ascii) (s : string) : string :=
  repeat_char c (targetLength - String.length s) ++ s.

(** Reading a text of digits as a number: leading zeros do not count. *)
Definition number_of_text (s : string) : N :=
  match NilEmpty.uint_of_string s with
  | Some d => N.of_uint d
  | None => 0
  end.

(** A template literal hole [${v}] for a field that is a string or is
    missing. *)
Definition template_of (v : option string) : string :=
  match v with
  | Some s => s
  | None => "undefined"
  end.

End Js.

(* ================================================================== *)
(** ** Time *)
(* ================================================================== *)

Definition ms_per_day : N := 86400000.

(** The calendar day (UTC) of an instant. *)
Definition date_of (t : N) : N := t / ms_per_day.

(** SQLite's [CURRENT_TIMESTAMP] has a resolution of one second. *)
Definition CURRENT_TIMESTAMP (now : N) : N := (now / 1000) * 1000.

(* ================================================================== *)
(** ** Exceptions *)
(* ================================================================== *)

(** What a rejected promise or a [throw] carries: a constraint violation
    reported by SQLite, a [TypeError] of the runtime, or an [Error] thrown
    by the WebSocket package. *)
Inductive error : Type :=
| NotNullConstraint (table column : string)
| TypeError (msg : string)
| SocketError (msg : string).

(* ================================================================== *)
(** ** database.js *)
(* ================================================================== *)

Module Database.

(** A row of table [patients]. *)
Record patient : Type := mkPatient {
  p_id : N;
  p_name : string;
  p_age : Z;
  p_gender : string;
  p_contact : string;
  p_created_at : N;
  p_last_visit : N;
  p_visit_count : Z
}.

(** A row of table [queue].  [symptoms], [status], [called_at] and
    [completed_at] are nullable columns. *)
Record queue_row : Type := mkQueueRow {
  q_id : N;
  q_patient_id : N;
  q_token : string;
  q_department : string;
  q_symptoms : option string;
  q_status : option string;
  q_registered_at : N;
  q_called_at : option N;
  q_completed_at : option N
}.

(** The store: both tables in insertion order and the AUTOINCREMENT
    sequence of each. *)
Record database : Type := mkDatabase {
  patients : list patient;
  queue : list queue_row;
  patients_seq : N;
  queue_seq : N
}.

(** The store after [initializeTables] on a fresh file. *)
Definition empty_db : database := mkDatabase [] [] 0 0.

(** The object the driver returns for [SELECT * FROM patients]: one
    property per column, named as the column. *)
Definition row_of_patient (p : patient) : Js.jsobj :=
  [ ("id", Js.JNum (Z.of_N (p_id p)));
    ("name", Js.JStr (p_name p));
    ("age", Js.JNum (p_age p));
    ("gender", Js.JStr (p_gender p));
    ("contact", Js.JStr (p_contact p));
    ("created_at", Js.JNum (Z.of_N (p_created_at p)));
    ("last_visit", Js.JNum (Z.of_N (p_last_visit p)));
    ("visit_count", Js.JNum (p_visit_count p)) ].

Definition has_contact (c : string) (p : patient) : bool :=
  String.eqb (p_contact p) c.

(** [SELECT * FROM patients WHERE contact = ?].  A NULL parameter matches
    no row. *)
Definition getPatientByContact (contact : option string) (d : database)
  : option patient :=
  match contact with
  | None => None
  | Some c => find (has_contact c) (patients d)
  end.

(** The [ON CONFLICT(contact) DO UPDATE] arm of [addPatient]. *)
Definition bump_visit (now : N) (c : string) (p : patient) : patient :=
  if has_contact c p
  then mkPatient (p_id p) (p_name p) (p_age p) (p_gender p) (p_contact p)
                 (p_created_at p) (CURRENT_TIMESTAMP now) (p_visit_count p + 1)
  else p.

(** The INSERT of [addPatient].  NOT NULL constraints are checked before
    the uniqueness of [contact].  The id of the new row is drawn from the
    AUTOINCREMENT sequence before the conflict is seen, so the arm that
    updates the stored row uses up an id as well: the sequence advances
    by one on both arms.  (The sequence is taken to be no lower than the
    ids in the table, as SQLite keeps it.) *)
Definition insertPatient (now : N)
    (name : option string) (age : option Z)
    (gender contact : option string) (d : database) : error + database :=
  match name, age, gender, contact with
  | None, _, _, _ => inl (NotNullConstraint "patients" "name")
  | _, None, _, _ => inl (NotNullConstraint "patients" "age")
  | _, _, None, _ => inl (NotNullConstraint "patients" "gender")
  | _, _, _, None => inl (NotNullConstraint "patients" "contact")
  | Some n, Some a, Some g, Some c =>
      if existsb (has_contact c) (patients d)
      then inr (mkDatabase (map (bump_visit now c) (patients d)) (queue d)
                           (patients_seq d + 1) (queue_seq d))
      else
        let i := patients_seq d + 1 in
        let ts := CURRENT_TIMESTAMP now in
        inr (mkDatabase (patients d ++ [mkPatient i n a g c ts ts 1])
                        (queue d) i (queue_seq d))
  end.

(** [SELECT id FROM patients WHERE contact = ?] followed by [patient.id]. *)
Definition selectPatientId (contact : option string) (d : database)
  : error + N :=
  match getPatientByContact contact d with
  | Some p => inr (p_id p)
  | None => inl (TypeError "Cannot read properties of undefined (reading 'id')")
  end.

(** [addPatient]: both statements back to back. *)
Definition addPatient (now : N)
    (name : option string) (age : option Z)
    (gender contact : option string) (d : database)
  : (error + N) * database :=
  match insertPatient now name age gender contact d with
  | inl e => (inl e, d)
  | inr d' => (selectPatientId contact d', d')
  end.

(** The rows of one department registered on one day. *)
Definition in_scope (department : string) (day : N) (r : queue_row) : bool :=
  String.eqb (q_department r) department && (date_of (q_registered_at r) =? day).

(** [SELECT COUNT( * ) FROM queue WHERE department = ? AND
    DATE(registered_at) = ?]. *)
Definition countEntries (department : option string) (day : N) (d : database)
  : N :=
  match department with
  | None => 0
  | Some dep => N.of_nat (List.length (filter (in_scope dep day) (queue d)))
  end.

Definition generateToken (department : option string) (now : N) (d : database)
  : string :=
  let today := date_of now in
  let count := countEntries department today d in
  let tokenNumber := Js.padStart 3 "0"%char (Js.String_of_number (count + 1)) in
  Js.template_of department ++ tokenNumber.

(** [addToQueue]: [registered_at] takes its default, [called_at] and
    [completed_at] stay NULL.  Returns [result.lastID]. *)
Definition addToQueue (now : N) (patientId : N) (token : string)
    (department symptoms status : option string) (d : database)
  : (error + N) * database :=
  match department with
  | None => (inl (NotNullConstraint "queue" "department"), d)
  | Some dep =>
      let i := queue_seq d + 1 in
      (inr i,
       mkDatabase (patients d)
         (queue d ++ [mkQueueRow i patientId token dep symptoms status
                                 (CURRENT_TIMESTAMP now) None None])
         (patients_seq d) i)
  end.

Definition is_status (s : string) (st : option string) : bool :=
  match st with
  | Some s' => String.eqb s' s
  | None => false
  end.

(** The WHERE clause of [getQueuePosition]; [token < ?] compares texts
    byte by byte. *)
Definition ahead_of (department token : string) (day : N) (r : queue_row)
  : bool :=
  String.eqb (q_department r) department
  && is_status "Waiting" (q_status r)
  && String.ltb (q_token r) token
  && (date_of (q_registered_at r) =? day).

(** The Waiting rows of one department and day, whatever their token. *)
Definition waiting_in (department : string) (day : N) (r : queue_row) : bool :=
  in_scope department day r && is_status "Waiting" (q_status r).

Definition getQueuePosition (token : string) (department : option string)
    (now : N) (d : database) : N :=
  let today := date_of now in
  match department with
  | None => 0
  | Some dep => N.of_nat (List.length (filter (ahead_of dep token today) (queue d)))
  end.

(** The SET clause of [updateQueueStatus] applied to one row. *)
Definition set_status (status : option string) (timestamp : N) (r : queue_row)
  : queue_row :=
  if is_status "In Progress" status then
    mkQueueRow (q_id r) (q_patient_id r) (q_token r) (q_department r)
               (q_symptoms r) status (q_registered_at r)
               (Some timestamp) (q_completed_at r)
  else if is_status "Completed" status then
    mkQueueRow (q_id r) (q_patient_id r) (q_token r) (q_department r)
               (q_symptoms r) status (q_registered_at r)
               (q_called_at r) (Some timestamp)
  else
    mkQueueRow (q_id r) (q_patient_id r) (q_token r) (q_department r)
               (q_symptoms r) status (q_registered_at r)
               (q_called_at r) (q_completed_at r).

(** [updateQueueStatus].  [queueId] is the integer the [id] column's
    affinity gives the route parameter; a parameter that is not a number
    matches no row, as an unused id does.  The statement resolves whether
    or not a row matched; the number of changed rows is reported in the
    resolved object. *)
Definition updateQueueStatus (queueId : N) (status : option string) (now : N)
    (d : database) : N * database :=
  let timestamp := now in
  let hit := fun r => q_id r =? queueId in
  (N.of_nat (List.length (filter hit (queue d))),
   mkDatabase (patients d)
     (map (fun r => if hit r then set_status status timestamp r else r) (queue d))
     (patients_seq d) (queue_seq d)).

End Database.

(* ================================================================== *)
(** ** server.js *)
(* ================================================================== *)

Module Server.

Import Js Database.

(** *** Connected clients *)

(** [readyState] of a WebSocket. *)
Inductive ready_state : Type := CONNECTING | OPEN | CLOSING | CLOSED.

(** [req.body] of a registration. *)
Record patientData : Type := mkPatientData {
  name : option string;
  age : option Z;
  gender : option string;
  contact : option string;
  department : option string;
  symptoms : option string
}.

(** The [data] of a NEW_REGISTRATION event: the request body with the
    properties the route adds to it, then [patientId], [queueId] and
    [position]. *)
Record registration_event : Type := mkRegistrationEvent {
  ev_body : patientData;
  ev_isReturning : bool;
  ev_lastVisit : jsval;
  ev_visitCount : jsval;
  ev_token : string;
  ev_status : string;
  ev_patientId : N;
  ev_queueId : N;
  ev_position : N
}.

Inductive message : Type :=
| NEW_REGISTRATION (data : registration_event)
| STATUS_UPDATE (queueId : N) (status : option string).

(** The state of the process: the store, the set [clients] (socket
    objects by identity, in insertion order), the [readyState] of every
    socket object, and the frames handed to the transport so far (oldest
    first).  [readyState] belongs to the transport: the server only reads
    it. *)
Record world : Type := mkWorld {
  db : database;
  clients : list N;
  readyState : N -> ready_state;
  wire : list (N * message)
}.

Definition initial_world : world :=
  mkWorld empty_db [] (fun _ => OPEN) [].

Definition set_db (d : database) (w : world) : world :=
  mkWorld d (clients w) (readyState w) (wire w).

Definition set_clients (cs : list N) (w : world) : world :=
  mkWorld (db w) cs (readyState w) (wire w).

Definition push_wire (c : N) (m : message) (w : world) : world :=
  mkWorld (db w) (clients w) (readyState w) (wire w ++ [(c, m)]).

(** [Set.prototype.add] and [Set.prototype.delete]. *)
Definition set_add (c : N) (s : list N) : list N :=
  if existsb (N.eqb c) s then s else s ++ [c].

Definition set_delete (c : N) (s : list N) : list N :=
  filter (fun x => negb (x =? c)) s.

(** The synchronous part of the connection handler, and the [close] and
    [error] handlers it installs on the socket. *)
Definition on_connection (ws : N) (w : world) : world :=
  set_clients (set_add ws (clients w)) w.

Definition on_close (ws : N) (w : world) : world :=
  set_clients (set_delete ws (clients w)) w.

Definition on_error (ws : N) (w : world) : world :=
  set_clients (set_delete ws (clients w)) w.

(** [ws.send(data)] without a callback, as package ws (version 8) does
    it: it throws on a socket that is still connecting, hands the frame to
    the transport on an open socket and discards it otherwise. *)
Inductive send_outcome : Type := SendThrows | SendQueued | SendDiscarded.

Definition ws_send (st : ready_state) : send_outcome :=
  match st with
  | CONNECTING => SendThrows
  | OPEN => SendQueued
  | CLOSING | CLOSED => SendDiscarded
  end.

Definition is_open (st : ready_state) : bool :=
  match st with
  | OPEN => true
  | _ => false
  end.

(** [clients.forEach(client => ...)] of [broadcast]: an exception thrown
    by the callback ends the iteration and propagates. *)
Fixpoint forEach_send (cs : list N) (msg : message) (w : world)
  : option error * world :=
  match cs with
  | [] => (None, w)
  | client :: rest =>
      if is_open (readyState w client) then
        match ws_send (readyState w client) with
        | SendThrows =>
            (Some (SocketError "WebSocket is not open: readyState 0 (CONNECTING)"), w)
        | SendQueued => forEach_send rest msg (push_wire client msg w)
        | SendDiscarded => forEach_send rest msg w
        end
      else forEach_send rest msg w
  end.

Definition broadcast (msg : message) (w : world) : option error * world :=
  forEach_send (clients w) msg w.

(** The members of a set of sockets that are open, and one frame of [msg]
    for each of them, in the order of the set. *)
Definition open_among (w : world) (cs : list N) : list N :=
  filter (fun c => is_open (readyState w c)) cs.

Definition frames (msg : message) (w : world) (cs : list N) : list (N * message) :=
  map (fun c => (c, msg)) (open_among w cs).

(** *** Route handlers *)

(** A handler body: it reads and writes the process state and either
    yields a value or throws.  What was written before a throw stays
    written. *)
Definition M (A : Type) : Type := world -> (error + A) * world.

Definition ret {A : Type} (a : A) : M A := fun w => (inr a, w).

Definition bind {A B : Type} (m : M A) (k : A -> M B) : M B :=
  fun w =>
    match m w with
    | (inl e, w') => (inl e, w')
    | (inr a, w') => k a w'
    end.

Notation "x <- m ;; k" := (bind m (fun x => k))
  (at level 61, m at next level, right associativity).
Notation "m ;;; k" := (bind m (fun _ => k))
  (at level 61, right associativity).

(** An awaited statement that only reads the store. *)
Definition query {A : Type} (f : database -> A) : M A :=
  fun w => (inr (f (db w)), w).

(** An awaited operation that may write the store and may reject. *)
Definition exec {A : Type} (f : database -> (error + A) * database) : M A :=
  fun w => let '(r, d') := f (db w) in (r, set_db d' w).

Definition publish (msg : message) : M unit :=
  fun w =>
    match broadcast msg w with
    | (Some e, w') => (inl e, w')
    | (None, w') => (inr tt, w')
    end.

(** [try { ... } catch (error) { res.status(500).json(...) }]. *)
Definition try_catch {A : Type} (m : M A) (h : error -> A) : world -> A * world :=
  fun w =>
    match m w with
    | (inl e, w') => (h e, w')
    | (inr a, w') => (a, w')
    end.

(** What the route answers.  A [visitCount] that is not a number leaves
    [res.json] as [null]. *)
Inductive response : Type :=
| RegisterOk (token : string) (position : N) (isReturning : bool)
             (visitCount : jsval) (patientId : N)
| StatusOk
| Failure500 (e : error).

(** The clock readings of one registration, one per statement that reads
    the clock. *)
Record reg_clock : Type := mkRegClock {
  at_patient : N;
  at_token : N;
  at_queue : N;
  at_position : N
}.

(** What the route knows about the patient once resolved:
    [patientId], [isReturning], [lastVisit], [visitCount]. *)
Record resolved : Type := mkResolved {
  patientId : N;
  isReturning : bool;
  lastVisit : jsval;
  visitCount : jsval
}.

Definition resolve_existing (p : patient) : resolved :=
  let existingPatient := row_of_patient p in
  mkResolved (p_id p) true
             (js_get existingPatient "lastVisit")
             (js_add_num (js_get existingPatient "visitCount") 1).

Definition resolve_new (i : N) : resolved :=
  mkResolved i false JUndefined (JNum 1).

Definition resolve_patient (req : patientData) (now : N) : M resolved :=
  existingPatient <- query (getPatientByContact (contact req)) ;;
  match existingPatient with
  | Some p => ret (resolve_existing p)
  | None =>
      i <- exec (addPatient now (name req) (age req) (gender req) (contact req)) ;;
      ret (resolve_new i)
  end.

Definition registration_message (req : patientData) (pt : resolved)
    (token : string) (queueId position : N) : message :=
  NEW_REGISTRATION
    (mkRegistrationEvent req (isReturning pt) (lastVisit pt) (visitCount pt)
                         token "Waiting" (patientId pt) queueId position).

(** [app.post('/api/register')]. *)
Definition register_body (req : patientData) (clk : reg_clock) : M response :=
  pt <- resolve_patient req (at_patient clk) ;;
  token <- query (generateToken (department req) (at_token clk)) ;;
  queueId <- exec (addToQueue (at_queue clk) (patientId pt) token
                              (department req) (symptoms req) (Some "Waiting")) ;;
  position <- query (getQueuePosition token (department req) (at_position clk)) ;;
  publish (registration_message req pt token queueId position) ;;;
  ret (RegisterOk token position (isReturning pt) (visitCount pt) (patientId pt)).

Definition register (req : patientData) (clk : reg_clock)
  : world -> response * world :=
  try_catch (register_body req clk) Failure500.

(** [app.put('/api/queue/:queueId/status')]. *)
Definition put_status_body (queueId : N) (status : option string) (now : N)
  : M response :=
  _changes <- exec (fun d => let '(n, d') := updateQueueStatus queueId status now d
                             in (inr n, d')) ;;
  publish (STATUS_UPDATE queueId status) ;;;
  ret StatusOk.

Definition put_status (queueId : N) (status : option string) (now : N)
  : world -> response * world :=
  try_catch (put_status_body queueId status now) Failure500.

End Server.

(* ================================================================== *)
(** ** Requests served one after another *)
(* ================================================================== *)

Module History.

Import Js Database Server.

(** A request of one of the two writing routes, with the clock readings
    its statements take. *)
Inductive request : Type :=
| Register (req : patientData) (clk : reg_clock)
| PutStatus (queueId : N) (status : option string) (now : N).

Definition handle (r : request) (w : world) : response * world :=
  match r with
  | Register req clk => register req clk w
  | PutStatus queueId status now => put_status queueId status now w
  end.

(** The process state after a history of requests, each served to its
    end before the next starts. *)
Definition run (rs : list request) (w : world) : world :=
  fold_left (fun w r => snd (handle r w)) rs w.

(** The same, keeping the answers. *)
Fixpoint serve (rs : list request) (w : world) : list response * world :=
  match rs with
  | [] => ([], w)
  | r :: rest =>
      let '(a, w1) := handle r w in
      let '(answers, w2) := serve rest w1 in
      (a :: answers, w2)
  end.

(** The tokens a list of answers issued. *)
Fixpoint issued_tokens (answers : list response) : list string :=
  match answers with
  | [] => []
  | RegisterOk token _ _ _ _ :: rest => token :: issued_tokens rest
  | _ :: rest => issued_tokens rest
  end.

(** A registration with its clock readings is of department [dep] and
    takes its token and its queue row on day [day]. *)
Definition within (dep : string) (day : N) (rc : patientData * reg_clock) : Prop :=
  department (fst rc) = Some dep /\
  date_of (at_token (snd rc)) = day /\
  date_of (at_queue (snd rc)) = day.

Definition registrations (regs : list (patientData * reg_clock)) : list request :=
  map (fun rc => Register (fst rc) (snd rc)) regs.

(** The clock readings of a request, in the order they are taken. *)
Definition readings (r : request) : list N :=
  match r with
  | Register _ clk => [at_patient clk; at_token clk; at_queue clk; at_position clk]
  | PutStatus _ _ now => [now]
  end.

Fixpoint nondecreasing_from (lo : N) (l : list N) : Prop :=
  match l with
  | [] => True
  | t :: rest => lo <= t /\ nondecreasing_from t rest
  end.

(** The last reading of a list, [lo] if there is none. *)
Definition last_reading (lo : N) (l : list N) : N :=
  fold_left (fun _ t => t) l lo.

(** The clock never goes back over a history. *)
Definition clock_monotone (rs : list request) : Prop :=
  nondecreasing_from 0 (flat_map readings rs).

(** The entry a queue id identifies. *)
Definition find_entry (i : N) (w : world) : option queue_row :=
  find (fun r => q_id r =? i) (queue (db w)).

(** Entry [i] had status [s] at some point of the history [rs] run from
    [w0]. *)
Definition passed_through (s : string) (i : N) (w0 : world)
    (rs : list request) : Prop :=
  exists before after r,
    rs = (before ++ after)%list /\
    find_entry i (run before w0) = Some r /\
    q_status r = Some s.

(** [a] is not set, or both are set and [a <= b]. *)
Definition not_after (a b : option N) : Prop :=
  match a, b with
  | None, _ => True
  | Some x, Some y => x <= y
  | Some _, None => False
  end.

Definition is_set (a : option N) : Prop := a <> None.

(** An entry as [addToQueue] writes it at clock reading [t]. *)
Definition just_registered (t : N) (e : queue_row) : Prop :=
  q_status e = Some "Waiting" /\ q_called_at e = None /\
  q_completed_at e = None /\ q_registered_at e = CURRENT_TIMESTAMP t.

(** The timestamps of an entry are no earlier than its registration and
    no later than [hi]; on a Completed entry the call is no later than
    the completion. *)
Definition timestamps_ok (hi : N) (e : queue_row) : Prop :=
  q_registered_at e <= hi /\
  (forall t, q_called_at e = Some t -> q_registered_at e <= t /\ t <= hi) /\
  (forall t, q_completed_at e = Some t -> q_registered_at e <= t /\ t <= hi) /\
  (q_status e = Some "Completed" ->
   forall tc td, q_called_at e = Some tc -> q_completed_at e = Some td -> tc <= td).

Definition bounded (hi : N) (w : world) : Prop :=
  forall i e, find_entry i w = Some e -> timestamps_ok hi e.

(** An entry that is In Progress has been called; one that is Completed
    has its completion time. *)
Definition stamped (e : queue_row) : Prop :=
  (q_status e = Some "In Progress" -> is_set (q_called_at e)) /\
  (q_status e = Some "Completed" -> is_set (q_completed_at e)).

(** Queue ids are pairwise distinct and none is above the sequence. *)
Definition ids_fresh (w : world) : Prop :=
  NoDup (map q_id (queue (db w))) /\
  Forall (fun r => q_id r <= queue_seq (db w)) (queue (db w)).

End History.

(* ================================================================== *)
(** ** Registrations whose statements interleave *)
(* ================================================================== *)

Module Async.

Import Js Database Server.

(** A registration suspended at an [await]: the statement it is about to
    run and the local variables of the handler. *)
Inductive task : Type :=
| AwaitLookup (req : patientData)
| AwaitInsertPatient (req : patientData)
| AwaitSelectPatientId (req : patientData)
| AwaitToken (req : patientData) (pt : resolved)
| AwaitAddToQueue (req : patientData) (pt : resolved) (token : string)
| AwaitPosition (req : patientData) (pt : resolved) (token : string) (queueId : N)
| Finished (answer : response).

(** The pending statement runs on the store at clock reading [now], and
    the handler continues to its next [await] or to its end.  The end of
    the handler, broadcast and answer, touches no table and is taken
    together with the last statement. *)
Definition step (now : N) (t : task) (w : world) : task * world :=
  match t with
  | AwaitLookup req =>
      match getPatientByContact (contact req) (db w) with
      | Some p => (AwaitToken req (resolve_existing p), w)
      | None => (AwaitInsertPatient req, w)
      end
  | AwaitInsertPatient req =>
      match insertPatient now (name req) (age req) (gender req) (contact req) (db w) with
      | inl e => (Finished (Failure500 e), w)
      | inr d' => (AwaitSelectPatientId req, set_db d' w)
      end
  | AwaitSelectPatientId req =>
      match selectPatientId (contact req) (db w) with
      | inl e => (Finished (Failure500 e), w)
      | inr i => (AwaitToken req (resolve_new i), w)
      end
  | AwaitToken req pt =>
      (AwaitAddToQueue req pt (generateToken (department req) now (db w)), w)
  | AwaitAddToQueue req pt token =>
      match addToQueue now (patientId pt) token (department req) (symptoms req)
                       (Some "Waiting") (db w) with
      | (inl e, _) => (Finished (Failure500 e), w)
      | (inr queueId, d') => (AwaitPosition req pt token queueId, set_db d' w)
      end
  | AwaitPosition req pt token queueId =>
      let position := getQueuePosition token (department req) now (db w) in
      match broadcast (registration_message req pt token queueId position) w with
      | (Some e, w') => (Finished (Failure500 e), w')
      | (None, w') =>
          (Finished (RegisterOk token position (isReturning pt) (visitCount pt)
                                (patientId pt)), w')
      end
  | Finished a => (Finished a, w)
  end.

(** The clock reading a suspended registration takes from [clk] when it
    resumes. *)
Definition reading_for (clk : reg_clock) (t : task) : N :=
  match t with
  | AwaitInsertPatient _ => at_patient clk
  | AwaitToken _ _ => at_token clk
  | AwaitAddToQueue _ _ _ => at_queue clk
  | AwaitPosition _ _ _ _ => at_position clk
  | _ => 0
  end.

(** One registration run alone for [n] statements. *)
Fixpoint alone (clk : reg_clock) (n : nat) (t : task) (w : world) : task * world :=
  match n with
  | O => (t, w)
  | S n' => let '(t', w') := step (reading_for clk t) t w in alone clk n' t' w'
  end.

(** Several registrations in flight.  A schedule names, statement by
    statement, which registration runs next and the clock reading. *)
Fixpoint step_nth (k : nat) (now : N) (ts : list task) (w : world)
  : list task * world :=
  match ts, k with
  | [], _ => ([], w)
  | t :: rest, O => let '(t', w') := step now t w in (t' :: rest, w')
  | t :: rest, S k' => let '(rest', w') := step_nth k' now rest w in (t :: rest', w')
  end.

Fixpoint run_schedule (sched : list (nat * N)) (ts : list task) (w : world)
  : list task * world :=
  match sched with
  | [] => (ts, w)
  | (k, now) :: rest =>
      let '(ts', w') := step_nth k now ts w in run_schedule rest ts' w'
  end.

Fixpoint tokens_of (ts : list task) : list string :=
  match ts with
  | [] => []
  | Finished (RegisterOk token _ _ _ _) :: rest => token :: tokens_of rest
  | _ :: rest => tokens_of rest
  end.

End Async.

(* ================================================================== *)
(** ** The design's statements, as it words them *)
(* ================================================================== *)

Module Design.

Import Js Database Server History Async.

(** The state machine of the design: Waiting, then In Progress, then
    Completed. *)
Definition allowed_transition (from to : option string) : bool :=
  match from, to with
  | Some f, Some t =>
      (String.eqb f "Waiting" && String.eqb t "In Progress")
      || (String.eqb f "In Progress" && String.eqb t "Completed")
  | _, _ => false
  end.

(** A status change outside the state machine fails, leaves the entry as
    it was and puts nothing on the wire. *)
Definition other_transitions_fail : Prop :=
  forall w i r status now,
    find_entry i w = Some r ->
    allowed_transition (q_status r) status = false ->
    exists e w',
      put_status i status now w = (Failure500 e, w') /\
      find_entry i w' = Some r /\
      wire w' = wire w.

(** A status change for an id that names no entry fails and changes
    nothing. *)
Definition unknown_entry_fails : Prop :=
  forall w i status now,
    find_entry i w = None ->
    exists e w',
      put_status i status now w = (Failure500 e, w') /\
      db w' = db w.

(** A required field of a registration is missing. *)
Definition incomplete (req : patientData) : Prop :=
  name req = None \/ age req = None \/ gender req = None \/
  contact req = None \/ department req = None.

(** An incomplete registration fails and leaves store and wire as they
    were. *)
Definition incomplete_registration_fails : Prop :=
  forall req clk w,
    incomplete req ->
    exists e w',
      register req clk w = (Failure500 e, w') /\
      db w' = db w /\ wire w' = wire w.

(** The timestamps of an entry over a history served from an empty
    store, the clock never going back. *)
Definition timestamps_follow_lifecycle : Prop :=
  forall rs r,
    clock_monotone rs ->
    In r (queue (db (run rs initial_world))) ->
    (is_set (q_called_at r) <->
       passed_through "In Progress" (q_id r) initial_world rs) /\
    (is_set (q_completed_at r) <->
       passed_through "Completed" (q_id r) initial_world rs) /\
    (forall later,
        clock_monotone (rs ++ later) ->
        exists r',
          find_entry (q_id r) (run (rs ++ later) initial_world) = Some r' /\
          not_after (q_called_at r) (q_called_at r') /\
          not_after (q_completed_at r) (q_completed_at r')) /\
    (forall tc td,
        q_called_at r = Some tc -> q_completed_at r = Some td ->
        q_registered_at r <= tc /\ tc <= td).

(** Registrations of one department, all statements of which run on one
    day. *)
Definition one_scope (dep : string) (day : N) (reqs : list patientData)
    (sched : list (nat * N)) : Prop :=
  Forall (fun req => department req = Some dep) reqs /\
  Forall (fun kn => date_of (snd kn) = day) sched.

(** Whatever the interleaving of the statements of registrations of one
    department and day, the tokens issued are pairwise distinct. *)
Definition interleaved_tokens_distinct : Prop :=
  forall dep day reqs sched w ts w',
    one_scope dep day reqs sched ->
    run_schedule sched (map AwaitLookup reqs) w = (ts, w') ->
    NoDup (tokens_of ts).

End Design.

(* ================================================================== *)
(** ** The scenario of two patients of department GEN *)
(* ================================================================== *)

Module Scenario.

Import Js Database Server History.

Definition patient_A : patientData :=
  mkPatientData (Some "A") (Some 34%Z) (Some "F") (Some "555-0001")
                (Some "GEN") (Some "fever").

Definition patient_B : patientData :=
  mkPatientData (Some "B") (Some 51%Z) (Some "M") (Some "555-0002")
                (Some "GEN") None.

(** 1 January 2026, 09:00:00.250 UTC, and readings one second apart. *)
Definition nine : N := 1767258000250.

Definition clock_at (t : N) : reg_clock := mkRegClock t t t t.

(** One viewer connected. *)
Definition one_viewer : world := on_connection 1 initial_world.

Definition after_A : world := snd (register patient_A (clock_at nine) one_viewer).

Definition after_B : world :=
  snd (register patient_B (clock_at (nine + 1000)) after_A).

(** A is called, then done. *)
Definition after_call : world :=
  snd (put_status 1 (Some "In Progress") (nine + 2000) after_B).

Definition after_done : world :=
  snd (put_status 1 (Some "Completed") (nine + 3000) after_call).

(** A comes back the same day; and a request of A's without department. *)
Definition patient_A_again : patientData :=
  mkPatientData None None None (Some "555-0001") (Some "GEN") None.

Definition patient_C_no_department : patientData :=
  mkPatientData (Some "C") (Some 8%Z) (Some "M") (Some "555-0003") None None.

Definition patient_D_no_name : patientData :=
  mkPatientData None (Some 8%Z) (Some "M") (Some "555-0004") (Some "GEN") None.

(** Two viewers, the socket of the first no longer open. *)
Definition viewer_1_lost : world :=
  mkWorld (db after_B) [1; 2] (fun c => if c =? 1 then CLOSED else OPEN) [].

(** The statements of two registrations taken in turn, all within the
    same second. *)
Definition in_turn : list (nat * N) :=
  [(0%nat, nine); (1%nat, nine); (0%nat, nine); (1%nat, nine);
   (0%nat, nine); (1%nat, nine); (0%nat, nine); (1%nat, nine);
   (0%nat, nine); (1%nat, nine); (0%nat, nine); (1%nat, nine)].

(** A is marked Completed before being called, then marked In Progress. *)
Definition done_then_called : list request :=
  [Register patient_A (clock_at nine);
   PutStatus 1 (Some "Completed") (nine + 1000);
   PutStatus 1 (Some "In Progress") (nine + 2000)].

(** A is called, then done; B waits. *)
Definition a_normal_morning : list request :=
  [Register patient_A (clock_at nine);
   Register patient_B (clock_at (nine + 1000));
   PutStatus 1 (Some "In Progress") (nine + 2000);
   PutStatus 1 (Some "Completed") (nine + 3000)].

(** A patient of another department, and one of GEN who comes the day
    after. *)
Definition patient_E_cardiology : patientData :=
  mkPatientData (Some "E") (Some 67%Z) (Some "F") (Some "555-0005")
                (Some "CAR") (Some "chest pain").

Definition patient_F_next_day : patientData :=
  mkPatientData (Some "F") (Some 29%Z) (Some "M") (Some "555-0006")
                (Some "GEN") None.

(** A and B in GEN, then E in CAR, all on 1 January 2026. *)
Definition after_E : world :=
  snd (register patient_E_cardiology (clock_at (nine + 2000)) after_B).

(** Three registrations within one second, the first and the third of
    the same patient. *)
Definition three_in_a_second : world :=
  run [Register patient_A (clock_at nine);
       Register patient_B (clock_at (nine + 100));
       Register patient_A_again (clock_at (nine + 200))]
      initial_world.

(** A day on which 999 registrations were served in GEN, none called
    yet: the first day of the epoch, no viewer connected. *)
Definition busy_day : world :=
  run (repeat (Register patient_A (clock_at 0)) 999) initial_world.

End Scenario.

(* ================================================================== *)
(** ** database.js, the reading side *)
(* ================================================================== *)

Module Queries.

Import Js Database.

(** [ORDER BY]: insertion into an ordered list.  [before x y] says that
    [x] may stand before [y]; rows that tie stay in the order of the
    table. *)
Fixpoint insert_by {A : Type} (before : A -> A -> bool) (x : A) (l : list A)
  : list A :=
  match l with
  | [] => [x]
  | y :: rest => if before x y then x :: l else y :: insert_by before x rest
  end.

Definition order_by {A : Type} (before : A -> A -> bool) (l : list A) : list A :=
  fold_right (insert_by before) [] l.

(** [queue q JOIN patients p ON q.patient_id = p.id] over the rows [qs]
    of the queue. *)
Definition join_patients (d : database) (qs : list queue_row)
  : list (queue_row * patient) :=
  flat_map (fun q => map (pair q)
                         (filter (fun p => p_id p =? q_patient_id q) (patients d)))
           qs.

Definition registered_today (today : N) (q : queue_row) : bool :=
  date_of (q_registered_at q) =? today.

Definition registered_asc (a b : queue_row * patient) : bool :=
  q_registered_at (fst a) <=? q_registered_at (fst b).

(** A row of [getTodayQueue]. *)
Record queue_view : Type := mkQueueView {
  v_queue_id : N;
  v_token : string;
  v_department : string;
  v_symptoms : option string;
  v_status : option string;
  v_registered_at : N;
  v_called_at : option N;
  v_completed_at : option N;
  v_patient_id : N;
  v_name : string;
  v_age : Z;
  v_gender : string;
  v_contact : string;
  v_visit_count : Z
}.

Definition view_of (qp : queue_row * patient) : queue_view :=
  let (q, p) := qp in
  mkQueueView (q_id q) (q_token q) (q_department q) (q_symptoms q) (q_status q)
              (q_registered_at q) (q_called_at q) (q_completed_at q)
              (p_id p) (p_name p) (p_age p) (p_gender p) (p_contact p)
              (p_visit_count p).

Definition getTodayQueue (now : N) (d : database) : list queue_view :=
  let today := date_of now in
  map view_of
      (order_by registered_asc
                (join_patients d (filter (registered_today today) (queue d)))).

(** A row of [getQueueByDepartment]: the columns of [getTodayQueue] but
    [called_at] and [completed_at]. *)
Record department_view : Type := mkDepartmentView {
  dv_queue_id : N;
  dv_token : string;
  dv_department : string;
  dv_symptoms : option string;
  dv_status : option string;
  dv_registered_at : N;
  dv_patient_id : N;
  dv_name : string;
  dv_age : Z;
  dv_gender : string;
  dv_contact : string;
  dv_visit_count : Z
}.

Definition department_view_of (qp : queue_row * patient) : department_view :=
  let (q, p) := qp in
  mkDepartmentView (q_id q) (q_token q) (q_department q) (q_symptoms q)
                   (q_status q) (q_registered_at q)
                   (p_id p) (p_name p) (p_age p) (p_gender p) (p_contact p)
                   (p_visit_count p).

(** What a row of [getTodayQueue] shows of a row of
    [getQueueByDepartment]. *)
Definition without_times (v : queue_view) : department_view :=
  mkDepartmentView (v_queue_id v) (v_token v) (v_department v) (v_symptoms v)
                   (v_status v) (v_registered_at v)
                   (v_patient_id v) (v_name v) (v_age v) (v_gender v)
                   (v_contact v) (v_visit_count v).

Definition getQueueByDepartment (department : string) (now : N) (d : database)
  : list department_view :=
  let today := date_of now in
  map department_view_of
      (order_by registered_asc
                (join_patients d (filter (in_scope department today) (queue d)))).

(** A row of [getPatientHistory]. *)
Record history_view : Type := mkHistoryView {
  h_token : string;
  h_department : string;
  h_symptoms : option string;
  h_status : option string;
  h_registered_at : N;
  h_completed_at : option N
}.

Definition history_view_of (q : queue_row) : history_view :=
  mkHistoryView (q_token q) (q_department q) (q_symptoms q) (q_status q)
                (q_registered_at q) (q_completed_at q).

(** [ORDER BY registered_at DESC]: a row goes before the rows registered
    strictly earlier, so of the rows of one second the one inserted last
    comes first, as the index on [registered_at] read backwards gives
    them. *)
Definition registered_desc (a b : queue_row) : bool :=
  q_registered_at b <? q_registered_at a.

(** [a] stands before [b] in a history: it was registered later, or in
    the same second and inserted later. *)
Definition later_first (a b : queue_row) : Prop :=
  q_registered_at b < q_registered_at a \/
  (q_registered_at a = q_registered_at b /\ q_id b < q_id a).

(** Ids grow along the table. *)
Definition ids_increasing (qs : list queue_row) : Prop :=
  StronglySorted (fun a b => q_id a < q_id b) qs.

(** [getPatientHistory]; [patientId] is the integer the column's affinity
    gives the route parameter. *)
Definition getPatientHistory (patientId : N) (d : database) : list history_view :=
  map history_view_of
      (firstn 10
              (order_by registered_desc
                        (filter (fun q => q_patient_id q =? patientId) (queue d)))).

(** [SELECT COUNT( * ) FROM queue WHERE status = s AND DATE(registered_at) = ?]. *)
Definition countStatus (s : string) (today : N) (d : database) : N :=
  N.of_nat (List.length
              (filter (fun q => is_status s (q_status q) && registered_today today q)
                      (queue d))).

Record today_stats : Type := mkTodayStats {
  st_waiting : N;
  st_inProgress : N;
  st_completed : N;
  st_total : N
}.

(** A row of the [GROUP BY department] query. *)
Record department_stat : Type := mkDepartmentStat {
  ds_department : string;
  ds_count : N;
  ds_waiting : N;
  ds_completed : N
}.

Record statistics : Type := mkStatistics {
  today : today_stats;
  totalPatients : N;
  departments : list department_stat
}.

(** The departments of a list of rows, each once. *)
Fixpoint distinct_departments (qs : list queue_row) : list string :=
  match qs with
  | [] => []
  | q :: rest =>
      q_department q
      :: filter (fun dep => negb (String.eqb dep (q_department q)))
                (distinct_departments rest)
  end.

(** [GROUP BY department]: one group per department, in the order of the
    department texts. *)
Definition groups (qs : list queue_row) : list string :=
  order_by String.leb (distinct_departments qs).

Definition count_if (f : queue_row -> bool) (qs : list queue_row) : N :=
  N.of_nat (List.length (filter f qs)).

Definition department_stat_of (qs : list queue_row) (dep : string)
  : department_stat :=
  let mine := filter (fun q => String.eqb (q_department q) dep) qs in
  mkDepartmentStat dep
    (N.of_nat (List.length mine))
    (count_if (fun q => is_status "Waiting" (q_status q)) mine)
    (count_if (fun q => is_status "Completed" (q_status q)) mine).

(** [getStatistics], its six queries run on one state of the store. *)
Definition getStatistics (now : N) (d : database) : statistics :=
  let today := date_of now in
  let rows := filter (registered_today today) (queue d) in
  mkStatistics
    (mkTodayStats (countStatus "Waiting" today d)
                  (countStatus "In Progress" today d)
                  (countStatus "Completed" today d)
                  (N.of_nat (List.length rows)))
    (N.of_nat (List.length (patients d)))
    (map (department_stat_of rows) (groups rows)).

(** Sum of a column over the rows of a result. *)
Definition total_of {A : Type} (f : A -> N) (l : list A) : N :=
  fold_right (fun x acc => f x + acc) 0 l.

End Queries.

(* ================================================================== *)
(** ** Invariants of the store *)
(* ================================================================== *)

Module Integrity.

Import Js Database Server History.

(** No two patients share a contact. *)
Definition contacts_unique (d : database) : Prop :=
  NoDup (map p_contact (patients d)).

(** Patient ids are pairwise distinct and none is above the sequence. *)
Definition patient_ids_fresh (d : database) : Prop :=
  NoDup (map p_id (patients d)) /\
  Forall (fun p => p_id p <= patients_seq d) (patients d).

(** Every queue row refers to a stored patient. *)
Definition patients_exist (d : database) : Prop :=
  Forall (fun q => exists p, In p (patients d) /\ p_id p = q_patient_id q)
         (queue d).

(** Every stored patient is at the first visit: the counter is 1 and the
    last visit is the creation. *)
Definition first_visits (d : database) : Prop :=
  Forall (fun p => p_visit_count p = 1%Z /\ p_last_visit p = p_created_at p)
         (patients d).

(** The token that carries number [k] in department [dep]. *)
Definition token_number (dep : string) (k : nat) : string :=
  dep ++ padStart 3 "0" (String_of_number (N.of_nat k)).

(** The rows of a department and day carry, in the order of the table,
    the numbers 1, 2, 3, ... *)
Definition numbered (dep : string) (day : N) (d : database) : Prop :=
  let rows := filter (in_scope dep day) (queue d) in
  map q_token rows = map (token_number dep) (seq 1 (List.length rows)).

(** No registration of a history has midnight between the statement that
    counts and the statement that inserts. *)
Definition counts_on_insert_day (r : request) : Prop :=
  match r with
  | Register _ clk => date_of (at_token clk) = date_of (at_queue clk)
  | PutStatus _ _ _ => True
  end.

End Integrity.

(* ================================================================== *)
(** ** Properties *)
(* ================================================================== *)

Import Js Database Server History Async Design Scenario.

(** *** Time and text *)

Lemma date_of_CURRENT_TIMESTAMP (now : N) :
  date_of (CURRENT_TIMESTAMP now) = date_of now.
Proof.
  unfold date_of, CURRENT_TIMESTAMP, ms_per_day.
  change 86400000 with (1000 * 86400).
  rewrite <- !N.Div0.div_div.
  rewrite N.div_mul by discriminate.
  reflexivity.
Qed.

Lemma CURRENT_TIMESTAMP_le (now : N) : CURRENT_TIMESTAMP now <= now.
Proof.
  unfold CURRENT_TIMESTAMP.
  rewrite N.mul_comm. apply N.Div0.mul_div_le.
Qed.

Lemma append_cancel (p a b : string) : p ++ a = p ++ b -> a = b.
Proof.
  induction p as [|c p IH]; simpl; intros H.
  - exact H.
  - injection H as H. auto.
Qed.

Lemma ltb_append (p a b : string) : String.ltb (p ++ a) (p ++ b) = String.ltb a b.
Proof.
  unfold String.ltb.
  induction p as [|c p IH]; simpl.
  - reflexivity.
  - unfold Ascii.compare. rewrite N.compare_refl. exact IH.
Qed.

Lemma number_of_text_zeros (k : nat) (s : string) :
  number_of_text (repeat_char "0" k ++ s) = number_of_text s.
Proof.
  induction k as [|k IH]; simpl.
  - reflexivity.
  - unfold number_of_text in *. simpl.
    destruct (NilEmpty.uint_of_string (repeat_char "0" k ++ s)) as [d|];
      destruct (NilEmpty.uint_of_string s) as [d'|]; simpl in *; auto.
Qed.

Lemma number_of_text_String_of_number (n : N) :
  number_of_text (String_of_number n) = n.
Proof.
  unfold number_of_text, String_of_number.
  assert (H : NilEmpty.uint_of_string (NilZero.string_of_uint (N.to_uint n))
              = Some (N.to_uint n)).
  { destruct n as [|p].
    - reflexivity.
    - unfold NilZero.string_of_uint.
      destruct (N.to_uint (N.pos p)) eqn:E; try apply NilEmpty.usu.
      exfalso. revert E. simpl. apply DecimalPos.Unsigned.to_uint_nonnil. }
  rewrite H. apply DecimalN.Unsigned.of_to.
Qed.

Lemma padStart_number_inj (a b : N) :
  padStart 3 "0" (String_of_number a) = padStart 3 "0" (String_of_number b) ->
  a = b.
Proof.
  intros H. apply (f_equal number_of_text) in H.
  unfold padStart in H.
  rewrite !number_of_text_zeros, !number_of_text_String_of_number in H.
  exact H.
Qed.

(** *** The broadcast *)

Lemma set_db_same (w : world) : set_db (db w) w = w.
Proof. destruct w; reflexivity. Qed.

Lemma forEach_send_frames (cs : list N) (msg : message) (w : world) :
  forEach_send cs msg w =
  (None, mkWorld (db w) (clients w) (readyState w) (wire w ++ frames msg w cs)).
Proof.
  revert w. induction cs as [|c cs IH]; intros w.
  - unfold frames. simpl. rewrite List.app_nil_r. destruct w; reflexivity.
  - unfold frames, open_among. simpl.
    destruct (readyState w c) eqn:E; simpl; rewrite IH; try reflexivity.
    unfold frames, open_among. simpl. rewrite <- List.app_assoc. reflexivity.
Qed.

Lemma broadcast_frames (msg : message) (w : world) :
  broadcast msg w =
  (None, mkWorld (db w) (clients w) (readyState w)
                 (wire w ++ frames msg w (clients w))).
Proof. apply forEach_send_frames. Qed.

Lemma publish_frames (msg : message) (w : world) :
  publish msg w =
  (inr tt, mkWorld (db w) (clients w) (readyState w)
                   (wire w ++ frames msg w (clients w))).
Proof. unfold publish. rewrite broadcast_frames. reflexivity. Qed.

(** *** The registration route, statement by statement *)

Lemma resolve_patient_unfold (req : patientData) (now : N) (w : world) :
  resolve_patient req now w =
  match getPatientByContact (contact req) (db w) with
  | Some p => (inr (resolve_existing p), w)
  | None =>
      match insertPatient now (name req) (age req) (gender req) (contact req) (db w) with
      | inl e => (inl e, w)
      | inr d' =>
          (match selectPatientId (contact req) d' with
           | inl e => inl e
           | inr i => inr (resolve_new i)
           end, set_db d' w)
      end
  end.
Proof.
  unfold resolve_patient, bind, query, exec, ret, addPatient.
  destruct (getPatientByContact (contact req) (db w)); [reflexivity|].
  destruct (insertPatient now (name req) (age req) (gender req) (contact req) (db w)).
  - rewrite set_db_same. reflexivity.
  - destruct (selectPatientId (contact req) d); reflexivity.
Qed.

Lemma insertPatient_queue now n a g c d d' :
  insertPatient now n a g c d = inr d' ->
  queue d' = queue d /\ queue_seq d' = queue_seq d.
Proof.
  unfold insertPatient.
  destruct n, a, g, c; try discriminate.
  destruct (existsb _ _); intros H; injection H as <-; auto.
Qed.

Lemma resolve_patient_queue req now w r w' :
  resolve_patient req now w = (r, w') ->
  queue (db w') = queue (db w) /\ queue_seq (db w') = queue_seq (db w) /\
  clients w' = clients w /\ readyState w' = readyState w /\ wire w' = wire w.
Proof.
  rewrite resolve_patient_unfold.
  destruct (getPatientByContact _ _).
  - intros H; injection H as <- <-. auto.
  - destruct (insertPatient _ _ _ _ _ _) eqn:E.
    + intros H; injection H as <- <-. auto.
    + intros H; injection H as <- <-.
      apply insertPatient_queue in E. simpl. tauto.
Qed.

Lemma register_unfold (req : patientData) (clk : reg_clock) (w : world) :
  register req clk w =
  match resolve_patient req (at_patient clk) w with
  | (inl e, w1) => (Failure500 e, w1)
  | (inr pt, w1) =>
      let token := generateToken (department req) (at_token clk) (db w1) in
      match addToQueue (at_queue clk) (patientId pt) token (department req)
                       (symptoms req) (Some "Waiting") (db w1) with
      | (inl e, _) => (Failure500 e, w1)
      | (inr queueId, d2) =>
          let position :=
            getQueuePosition token (department req) (at_position clk) d2 in
          (RegisterOk token position (isReturning pt) (visitCount pt) (patientId pt),
           mkWorld d2 (clients w1) (readyState w1)
             (wire w1 ++ frames (registration_message req pt token queueId position)
                                w1 (clients w1)))
      end
  end.
Proof.
  unfold register, try_catch, register_body.
  unfold bind at 1.
  destruct (resolve_patient req (at_patient clk) w) as [[e|pt] w1]; [reflexivity|].
  unfold bind, query, exec. cbv zeta.
  unfold addToQueue.
  destruct (department req) as [dep|].
  - rewrite publish_frames. reflexivity.
  - rewrite set_db_same. reflexivity.
Qed.

(** The row a registration inserts. *)
Lemma register_ok_inv req clk w token position ir vc pid w' :
  register req clk w = (RegisterOk token position ir vc pid, w') ->
  exists dep pt w1,
    department req = Some dep /\
    resolve_patient req (at_patient clk) w = (inr pt, w1) /\
    token = generateToken (Some dep) (at_token clk) (db w1) /\
    queue (db w') =
      (queue (db w) ++
       [mkQueueRow (queue_seq (db w) + 1) pid token dep (symptoms req)
                   (Some "Waiting") (CURRENT_TIMESTAMP (at_queue clk)) None None])%list /\
    queue_seq (db w') = queue_seq (db w) + 1 /\
    patients (db w') = patients (db w1) /\
    position = getQueuePosition token (Some dep) (at_position clk) (db w') /\
    ir = isReturning pt /\ vc = visitCount pt /\ pid = patientId pt /\
    clients w' = clients w /\ readyState w' = readyState w /\
    wire w' =
      (wire w ++
       frames (registration_message req pt token (queue_seq (db w) + 1) position)
              w (clients w))%list.
Proof.
  rewrite register_unfold.
  destruct (resolve_patient req (at_patient clk) w) as [[e|pt] w1] eqn:R;
    [discriminate|].
  apply resolve_patient_queue in R as R'.
  destruct R' as (Hq & Hs & Hc & Hr & Hw).
  unfold addToQueue. cbv zeta.
  destruct (department req) as [dep|]; [|discriminate].
  intros H. injection H as <- <- <- <- <- <-.
  exists dep, pt, w1. simpl.
  rewrite Hq, Hs, Hc, Hw.
  unfold frames, open_among. rewrite Hr.
  repeat split; reflexivity.
Qed.

(** A registration that fails leaves the queue and the wire as they
    were. *)
Lemma register_failure_inv req clk w e w' :
  register req clk w = (Failure500 e, w') ->
  queue (db w') = queue (db w) /\ queue_seq (db w') = queue_seq (db w) /\
  clients w' = clients w /\ readyState w' = readyState w /\ wire w' = wire w.
Proof.
  rewrite register_unfold.
  destruct (resolve_patient req (at_patient clk) w) as [[e1|pt] w1] eqn:R;
    apply resolve_patient_queue in R.
  - intros H; injection H as <- <-. exact R.
  - unfold addToQueue. cbv zeta.
    destruct (department req); [discriminate|].
    intros H; injection H as <- <-. exact R.
Qed.

Lemma countEntries_queue dep day d d' :
  queue d' = queue d -> countEntries dep day d' = countEntries dep day d.
Proof. unfold countEntries. intros ->. reflexivity. Qed.

Lemma ahead_of_spec dep token day r :
  ahead_of dep token day r = true <->
  q_department r = dep /\ q_status r = Some "Waiting" /\
  String.compare (q_token r) token = Lt /\
  date_of (q_registered_at r) = day.
Proof.
  unfold ahead_of, is_status, String.ltb.
  rewrite !andb_true_iff, String.eqb_eq, N.eqb_eq.
  destruct (q_status r) as [s|].
  - rewrite String.eqb_eq.
    destruct (String.compare (q_token r) token); intuition congruence.
  - intuition congruence.
Qed.

Lemma ltb_irrefl (s : string) : String.ltb s s = false.
Proof.
  unfold String.ltb.
  induction s as [|c s IH]; simpl.
  - reflexivity.
  - unfold Ascii.compare. rewrite N.compare_refl. exact IH.
Qed.

Lemma find_snoc {A : Type} (f : A -> bool) (l : list A) (x : A) :
  find f (l ++ [x]) =
  match find f l with
  | Some y => Some y
  | None => if f x then Some x else None
  end.
Proof.
  induction l as [|y l IH]; simpl.
  - reflexivity.
  - destruct (f y); [reflexivity | exact IH].
Qed.

Lemma filter_length_snoc {A : Type} (f : A -> bool) (l : list A) (x : A) :
  f x = false -> List.length (filter f (l ++ [x])) = List.length (filter f l).
Proof.
  intros H. rewrite filter_app. simpl. rewrite H, List.app_nil_r. reflexivity.
Qed.

Lemma answer_with_state {A B : Type} (p : A * B) (a : A) :
  fst p = a -> p = (a, snd p).
Proof. intros <-. destruct p; reflexivity. Qed.

(** *** Position and token of a registration *)

(** C6.  The position a registration returns is the number of rows of the
    queue, at the moment the position is queried, that are of the same
    department, registered on the day of that moment, Waiting, and whose
    token is smaller in the byte order of texts.  The new entry is not
    among them, so this is also the number of such rows before the
    insertion. *)
Theorem register_position_counts_waiting_ahead
    req clk w token position ir vc pid w' :
  register req clk w = (RegisterOk token position ir vc pid, w') ->
  exists dep,
    department req = Some dep /\
    let today := date_of (at_position clk) in
    position = N.of_nat (List.length (filter (ahead_of dep token today) (queue (db w')))) /\
    position = N.of_nat (List.length (filter (ahead_of dep token today) (queue (db w)))) /\
    forall r, ahead_of dep token today r = true <->
      q_department r = dep /\ q_status r = Some "Waiting" /\
      String.compare (q_token r) token = Lt /\
      date_of (q_registered_at r) = today.
Proof.
  intros H. apply register_ok_inv in H.
  destruct H as (dep & pt & w1 & Hdep & _ & _ & Hq & _ & _ & Hpos & _).
  exists dep. split; [exact Hdep|]. cbv zeta.
  split; [exact Hpos|]. split.
  - rewrite Hpos. unfold getQueuePosition. rewrite Hq.
    rewrite filter_length_snoc; [reflexivity|].
    unfold ahead_of. simpl. rewrite ltb_irrefl.
    rewrite andb_false_r. reflexivity.
  - intros r. apply ahead_of_spec.
Qed.

Lemma register_token_format req clk w token position ir vc pid w' :
  register req clk w = (RegisterOk token position ir vc pid, w') ->
  exists dep,
    department req = Some dep /\
    token = dep ++ padStart 3 "0"
              (String_of_number
                 (countEntries (Some dep) (date_of (at_token clk)) (db w) + 1)).
Proof.
  intros H.
  apply register_ok_inv in H.
  destruct H as (dep & pt & w1 & Hdep & R & Htok & _).
  exists dep. split; [exact Hdep|].
  apply resolve_patient_queue in R. destruct R as (Hq & _).
  rewrite Htok. unfold generateToken. cbv zeta.
  rewrite (countEntries_queue _ _ _ _ Hq). reflexivity.
Qed.

Lemma register_position_counts_waiting_ahead_witness :
  exists dep,
    department patient_B = Some dep /\
    let today := date_of (at_position (clock_at (nine + 1000))) in
    1 = N.of_nat (List.length (filter (ahead_of dep "GEN002" today) (queue (db after_B)))) /\
    1 = N.of_nat (List.length (filter (ahead_of dep "GEN002" today) (queue (db after_A)))) /\
    forall r, ahead_of dep "GEN002" today r = true <->
      q_department r = dep /\ q_status r = Some "Waiting" /\
      String.compare (q_token r) "GEN002" = Lt /\
      date_of (q_registered_at r) = today.
Proof.
  apply (register_position_counts_waiting_ahead patient_B (clock_at (nine + 1000))
           after_A "GEN002" 1 false (JNum 1) 2 after_B).
  reflexivity.
Defined.

Lemma in_scope_spec dep day r :
  in_scope dep day r = true <->
  q_department r = dep /\ date_of (q_registered_at r) = day.
Proof.
  unfold in_scope. rewrite andb_true_iff, String.eqb_eq, N.eqb_eq. reflexivity.
Qed.

Lemma repeat_char_length c k : String.length (repeat_char c k) = k.
Proof. induction k as [|k IH]; simpl; [reflexivity | rewrite IH; reflexivity]. Qed.

Lemma append_length (a b : string) :
  String.length (a ++ b) = (String.length a + String.length b)%nat.
Proof. induction a as [|c a IH]; simpl; [reflexivity | rewrite IH; reflexivity]. Qed.

(** C7.  The token of a registration is the department followed by the
    number of the rows of the queue that are of that department and were
    registered on the day of the count, plus one, in decimal, padded with
    zeros to three digits: the padded text reads back as that number and
    is as long as its decimal text, three characters at least.  From an
    empty store the first registration in GEN gets GEN001 at position 0
    and the second GEN002 at position 1; a registration in another
    department the same day then starts at 001, and a registration in GEN
    on another day starts at 001 again. *)
Theorem register_token_is_padded_count :
  (forall req clk w token position ir vc pid w',
      register req clk w = (RegisterOk token position ir vc pid, w') ->
      exists dep,
        department req = Some dep /\
        let day := date_of (at_token clk) in
        let count := N.of_nat (List.length (filter (in_scope dep day) (queue (db w)))) in
        token = dep ++ padStart 3 "0" (String_of_number (count + 1)) /\
        (forall r, in_scope dep day r = true <->
                   q_department r = dep /\ date_of (q_registered_at r) = day))
  /\
  (forall n,
      number_of_text (padStart 3 "0" (String_of_number n)) = n /\
      String.length (padStart 3 "0" (String_of_number n))
      = Nat.max 3 (String.length (String_of_number n)))
  /\
  (forall cs rs wr clkA clkB clkE clkF day other_day,
      date_of (at_token clkA) = day -> date_of (at_queue clkA) = day ->
      date_of (at_position clkA) = day ->
      date_of (at_token clkB) = day -> date_of (at_queue clkB) = day ->
      date_of (at_position clkB) = day ->
      date_of (at_token clkE) = day -> date_of (at_position clkE) = day ->
      date_of (at_token clkF) = other_day -> date_of (at_position clkF) = other_day ->
      other_day <> day ->
      exists pidA w1 pidB w2 pidE w3 pidF w4,
        register patient_A clkA (mkWorld empty_db cs rs wr)
          = (RegisterOk "GEN001" 0 false (JNum 1) pidA, w1) /\
        register patient_B clkB w1
          = (RegisterOk "GEN002" 1 false (JNum 1) pidB, w2) /\
        register patient_E_cardiology clkE w2
          = (RegisterOk "CAR001" 0 false (JNum 1) pidE, w3) /\
        register patient_F_next_day clkF w3
          = (RegisterOk "GEN001" 0 false (JNum 1) pidF, w4)).
Proof.
  split; [|split].
  - intros req clk w token position ir vc pid w' H.
    destruct (register_token_format _ _ _ _ _ _ _ _ _ H) as (dep & Hdep & Htok).
    exists dep. split; [exact Hdep|]. cbv zeta.
    split; [exact Htok | intros r; apply in_scope_spec].
  - intros n. unfold padStart. split.
    + rewrite number_of_text_zeros. apply number_of_text_String_of_number.
    + rewrite append_length, repeat_char_length. lia.
  - intros cs rs wr clkA clkB clkE clkF day other_day TA QA PA TB QB PB TE PE TF PF Hne.
    assert (Hneq : (day =? other_day) = false) by (apply N.eqb_neq; congruence).
    eexists _, _, _, _, _, _, _, _.
    split; [|split; [|split]].
    + rewrite register_unfold, resolve_patient_unfold.
      with_strategy opaque [date_of CURRENT_TIMESTAMP] cbn. reflexivity.
    + rewrite register_unfold, resolve_patient_unfold.
      with_strategy opaque [date_of CURRENT_TIMESTAMP] cbn.
      rewrite ?date_of_CURRENT_TIMESTAMP, ?QA, ?QB, ?TB, ?PB, ?TF, ?PF, ?Hneq, ?N.eqb_refl.
      with_strategy opaque [date_of CURRENT_TIMESTAMP] cbn.
      rewrite ?date_of_CURRENT_TIMESTAMP, ?QA, ?QB, ?TB, ?PB, ?TF, ?PF, ?Hneq, ?N.eqb_refl.
      with_strategy opaque [date_of CURRENT_TIMESTAMP] cbn.
      reflexivity.
    + rewrite register_unfold, resolve_patient_unfold.
      with_strategy opaque [date_of CURRENT_TIMESTAMP] cbn.
      rewrite ?date_of_CURRENT_TIMESTAMP, ?QA, ?QB, ?TB, ?PB, ?TF, ?PF, ?Hneq, ?N.eqb_refl.
      with_strategy opaque [date_of CURRENT_TIMESTAMP] cbn.
      rewrite ?date_of_CURRENT_TIMESTAMP, ?QA, ?QB, ?TB, ?PB, ?TF, ?PF, ?Hneq, ?N.eqb_refl.
      with_strategy opaque [date_of CURRENT_TIMESTAMP] cbn.
      reflexivity.
    + rewrite register_unfold, resolve_patient_unfold.
      with_strategy opaque [date_of CURRENT_TIMESTAMP] cbn.
      rewrite ?date_of_CURRENT_TIMESTAMP, ?QA, ?QB, ?TB, ?PB, ?TF, ?PF, ?Hneq, ?N.eqb_refl.
      with_strategy opaque [date_of CURRENT_TIMESTAMP] cbn.
      rewrite ?date_of_CURRENT_TIMESTAMP, ?QA, ?QB, ?TB, ?PB, ?TF, ?PF, ?Hneq, ?N.eqb_refl.
      with_strategy opaque [date_of CURRENT_TIMESTAMP] cbn.
      reflexivity.
Qed.

Lemma register_token_is_padded_count_witness :
  (exists dep,
      department patient_F_next_day = Some dep /\
      let day := date_of (at_token (clock_at (nine + 86400000))) in
      let count := N.of_nat (List.length (filter (in_scope dep day) (queue (db after_E)))) in
      "GEN001" = dep ++ padStart 3 "0" (String_of_number (count + 1)) /\
      (forall r, in_scope dep day r = true <->
                 q_department r = dep /\ date_of (q_registered_at r) = day))
  /\
  (exists pidA w1 pidB w2 pidE w3 pidF w4,
      register patient_A (clock_at nine) (mkWorld empty_db [1] (fun _ => OPEN) [])
        = (RegisterOk "GEN001" 0 false (JNum 1) pidA, w1) /\
      register patient_B (clock_at (nine + 1000)) w1
        = (RegisterOk "GEN002" 1 false (JNum 1) pidB, w2) /\
      register patient_E_cardiology (clock_at (nine + 2000)) w2
        = (RegisterOk "CAR001" 0 false (JNum 1) pidE, w3) /\
      register patient_F_next_day (clock_at (nine + 86400000)) w3
        = (RegisterOk "GEN001" 0 false (JNum 1) pidF, w4)).
Proof.
  split.
  - apply (proj1 register_token_is_padded_count patient_F_next_day
             (clock_at (nine + 86400000)) after_E "GEN001" 0 false (JNum 1) 4
             (snd (register patient_F_next_day (clock_at (nine + 86400000)) after_E))).
    vm_compute. reflexivity.
  - apply (proj2 (proj2 register_token_is_padded_count) [1] (fun _ => OPEN) []
             (clock_at nine) (clock_at (nine + 1000)) (clock_at (nine + 2000))
             (clock_at (nine + 86400000)) 20454 20455);
      try (vm_compute; reflexivity).
    discriminate.
Defined.

(** C10.  With 999 rows counted for a department and day, the next token
    ends in 1000, four digits; that token is smaller, as a text, than the
    token ending in 999; and after 999 registrations in GEN, all still
    Waiting, the thousandth is told a position below the number of
    Waiting entries registered before it. *)
Theorem token_past_padding_sorts_first :
  (forall dep now d,
      countEntries (Some dep) (date_of now) d = 999 ->
      generateToken (Some dep) now d = dep ++ "1000")
  /\
  (forall dep, String.ltb (dep ++ "1000") (dep ++ "999") = true)
  /\
  (exists w req clk position ir vc pid w',
      register req clk w = (RegisterOk "GEN1000" position ir vc pid, w') /\
      countEntries (department req) (date_of (at_token clk)) (db w) = 999 /\
      position <
        N.of_nat (List.length
                    (filter (waiting_in "GEN" (date_of (at_position clk)))
                            (queue (db w))))).
Proof.
  split; [|split].
  - intros dep now d H. unfold generateToken. cbv zeta. rewrite H. reflexivity.
  - intros dep. rewrite ltb_append. reflexivity.
  - exists busy_day, patient_B, (clock_at 1000).
    exists 100, false, (JNum 1), 2,
      (snd (register patient_B (clock_at 1000) busy_day)).
    assert (R : register patient_B (clock_at 1000) busy_day =
                (RegisterOk "GEN1000" 100 false (JNum 1) 2,
                 snd (register patient_B (clock_at 1000) busy_day))).
    { apply answer_with_state. vm_compute. reflexivity. }
    split; [exact R|].
    destruct (register_token_format _ _ _ _ _ _ _ _ _ R)
      as (dep & Hdep & Htok).
    simpl in Hdep. injection Hdep as <-.
    assert (E : padStart 3 "0" (String_of_number 1000) =
                padStart 3 "0"
                  (String_of_number
                     (countEntries (Some "GEN") (date_of (at_token (clock_at 1000)))
                                   (db busy_day) + 1))).
    { apply (append_cancel "GEN"). exact Htok. }
    apply padStart_number_inj in E.
    split; [simpl department; lia|].
    vm_compute. reflexivity.
Qed.

Lemma token_past_padding_sorts_first_witness :
  generateToken (Some "GEN") 1000 (db busy_day) = "GEN" ++ "1000".
Proof.
  apply (proj1 token_past_padding_sorts_first "GEN" 1000 (db busy_day)).
  vm_compute. reflexivity.
Defined.

(** *** Status updates *)

Lemma put_status_unfold (queueId : N) (status : option string) (now : N) (w : world) :
  put_status queueId status now w =
  (StatusOk,
   mkWorld (snd (updateQueueStatus queueId status now (db w)))
           (clients w) (readyState w)
           (wire w ++ frames (STATUS_UPDATE queueId status) w (clients w))).
Proof.
  unfold put_status, try_catch, put_status_body, bind, exec.
  simpl. rewrite publish_frames. reflexivity.
Qed.

Lemma find_map_hit (i : N) (f : queue_row -> queue_row) (l : list queue_row) :
  (forall r, q_id (f r) = q_id r) ->
  find (fun r => q_id r =? i) (map (fun r => if q_id r =? i then f r else r) l)
  = option_map f (find (fun r => q_id r =? i) l).
Proof.
  intros Hf. induction l as [|r l IH]; simpl.
  - reflexivity.
  - destruct (q_id r =? i) eqn:E.
    + rewrite Hf, E. reflexivity.
    + rewrite E. exact IH.
Qed.

Lemma find_map_miss (i j : N) (f : queue_row -> queue_row) (l : list queue_row) :
  i <> j ->
  (forall r, q_id (f r) = q_id r) ->
  find (fun r => q_id r =? i) (map (fun r => if q_id r =? j then f r else r) l)
  = find (fun r => q_id r =? i) l.
Proof.
  intros Hij Hf. induction l as [|r l IH]; simpl.
  - reflexivity.
  - destruct (q_id r =? j) eqn:Ej.
    + rewrite Hf. apply N.eqb_eq in Ej.
      destruct (q_id r =? i) eqn:Ei.
      * apply N.eqb_eq in Ei. congruence.
      * exact IH.
    + destruct (q_id r =? i); [reflexivity | exact IH].
Qed.

Lemma set_status_id status now r : q_id (set_status status now r) = q_id r.
Proof.
  unfold set_status.
  destruct (is_status "In Progress" status); [reflexivity|].
  destruct (is_status "Completed" status); reflexivity.
Qed.

Lemma set_status_status status now r : q_status (set_status status now r) = status.
Proof.
  unfold set_status.
  destruct (is_status "In Progress" status); [reflexivity|].
  destruct (is_status "Completed" status); reflexivity.
Qed.

Lemma set_status_called_at status now r :
  q_called_at (set_status status now r) =
  if is_status "In Progress" status then Some now else q_called_at r.
Proof.
  unfold set_status.
  destruct (is_status "In Progress" status); [reflexivity|].
  destruct (is_status "Completed" status); reflexivity.
Qed.

Lemma set_status_completed_at status now r :
  q_completed_at (set_status status now r) =
  if is_status "In Progress" status then q_completed_at r
  else if is_status "Completed" status then Some now else q_completed_at r.
Proof.
  unfold set_status.
  destruct (is_status "In Progress" status); [reflexivity|].
  destruct (is_status "Completed" status); reflexivity.
Qed.

Lemma set_status_registered_at status now r :
  q_registered_at (set_status status now r) = q_registered_at r.
Proof.
  unfold set_status.
  destruct (is_status "In Progress" status); [reflexivity|].
  destruct (is_status "Completed" status); reflexivity.
Qed.

Lemma put_status_find_hit i status now w r :
  find_entry i w = Some r ->
  find_entry i (snd (put_status i status now w)) = Some (set_status status now r).
Proof.
  unfold find_entry. intros H. rewrite put_status_unfold. simpl.
  rewrite find_map_hit by (intros; apply set_status_id).
  rewrite H. reflexivity.
Qed.

Lemma put_status_find_miss i j status now w :
  i <> j ->
  find_entry i (snd (put_status j status now w)) = find_entry i w.
Proof.
  unfold find_entry. intros H. rewrite put_status_unfold. simpl.
  apply find_map_miss; [exact H | intros; apply set_status_id].
Qed.

Lemma map_miss_id (i : N) (f : queue_row -> queue_row) (l : list queue_row) :
  find (fun r => q_id r =? i) l = None ->
  map (fun r => if q_id r =? i then f r else r) l = l.
Proof.
  induction l as [|r l IH]; simpl.
  - reflexivity.
  - destruct (q_id r =? i); [discriminate|].
    intros H. rewrite IH by exact H. reflexivity.
Qed.

Lemma updateQueueStatus_unknown i status now d :
  find (fun r => q_id r =? i) (queue d) = None ->
  updateQueueStatus i status now d = (0, d).
Proof.
  intros H. unfold updateQueueStatus. cbv zeta.
  rewrite map_miss_id by exact H.
  assert (F : filter (fun r => q_id r =? i) (queue d) = []).
  { clear -H. induction (queue d) as [|r l IH]; simpl in *.
    - reflexivity.
    - destruct (q_id r =? i); [discriminate | auto]. }
  rewrite F. destruct d; reflexivity.
Qed.

(** The design's statement on transitions does not hold: an entry that is
    Completed is put back to Waiting, the route answers success and the
    change is broadcast. *)
Lemma other_transitions_fail_refuted : ~ other_transitions_fail.
Proof.
  intros H.
  destruct (H after_done 1
              (mkQueueRow 1 1 "GEN001" "GEN" (Some "fever") (Some "Completed")
                          1767258000000 (Some (nine + 2000)) (Some (nine + 3000)))
              (Some "Waiting") (nine + 4000))
    as (e & w' & Hput & _).
  - reflexivity.
  - reflexivity.
  - rewrite put_status_unfold in Hput. discriminate.
Qed.

(** C2, as the code has it.  A status change for an existing entry
    always succeeds, whatever the status the entry has and whatever the
    value asked for, the two steps of the design's state machine among
    them: the entry takes the value asked for, [called_at] is stamped
    when that value is In Progress, [completed_at] when it is Completed,
    nothing else of the entry changes, and a STATUS_UPDATE goes to every
    open client. *)
Theorem put_status_sets_any_status w i r status now :
  find_entry i w = Some r ->
  exists w' r',
    put_status i status now w = (StatusOk, w') /\
    find_entry i w' = Some r' /\
    q_status r' = status /\
    q_called_at r' =
      (if is_status "In Progress" status then Some now else q_called_at r) /\
    q_completed_at r' =
      (if is_status "In Progress" status then q_completed_at r
       else if is_status "Completed" status then Some now
       else q_completed_at r) /\
    q_registered_at r' = q_registered_at r /\ q_token r' = q_token r /\
    q_department r' = q_department r /\
    wire w' = (wire w ++ frames (STATUS_UPDATE i status) w (clients w))%list.
Proof.
  intros H.
  exists (snd (put_status i status now w)), (set_status status now r).
  split; [|split].
  - rewrite put_status_unfold. reflexivity.
  - apply put_status_find_hit. exact H.
  - rewrite set_status_status, set_status_called_at, set_status_completed_at,
      set_status_registered_at.
    rewrite put_status_unfold. simpl.
    repeat split; unfold set_status;
      destruct (is_status "In Progress" status);
      try destruct (is_status "Completed" status); reflexivity.
Qed.

Lemma put_status_sets_any_status_witness :
  exists w' r',
    put_status 1 (Some "Waiting") (nine + 4000) after_done = (StatusOk, w') /\
    find_entry 1 w' = Some r' /\
    q_status r' = Some "Waiting" /\
    q_called_at r' = Some (nine + 2000) /\
    q_completed_at r' = Some (nine + 3000) /\
    q_registered_at r' = 1767258000000 /\ q_token r' = "GEN001" /\
    q_department r' = "GEN" /\
    wire w' = (wire after_done ++
               frames (STATUS_UPDATE 1 (Some "Waiting")) after_done
                      (clients after_done))%list.
Proof.
  apply (put_status_sets_any_status after_done 1
           (mkQueueRow 1 1 "GEN001" "GEN" (Some "fever") (Some "Completed")
                       1767258000000 (Some (nine + 2000)) (Some (nine + 3000)))
           (Some "Waiting") (nine + 4000)).
  reflexivity.
Defined.

(** The design's statement on unknown ids does not hold: the route
    answers success. *)
Lemma unknown_entry_fails_refuted : ~ unknown_entry_fails.
Proof.
  intros H.
  destruct (H after_B 7 (Some "Completed") (nine + 2000)) as (e & w' & Hput & _).
  - reflexivity.
  - rewrite put_status_unfold in Hput. discriminate.
Qed.

(** C3, as the code has it.  A status change for an id that names no
    entry mutates nothing in the store, but it does not fail: the route
    answers success and a STATUS_UPDATE for that id goes to every open
    client. *)
Theorem put_status_unknown_entry w i status now :
  find_entry i w = None ->
  exists w',
    put_status i status now w = (StatusOk, w') /\
    db w' = db w /\
    clients w' = clients w /\
    wire w' = (wire w ++ frames (STATUS_UPDATE i status) w (clients w))%list.
Proof.
  intros H. unfold find_entry in H.
  rewrite put_status_unfold, updateQueueStatus_unknown by exact H.
  eexists. split; [reflexivity|]. simpl. auto.
Qed.

Lemma put_status_unknown_entry_witness :
  exists w',
    put_status 7 (Some "Completed") (nine + 2000) after_B = (StatusOk, w') /\
    db w' = db after_B /\
    clients w' = clients after_B /\
    wire w' = (wire after_B ++
               frames (STATUS_UPDATE 7 (Some "Completed")) after_B
                      (clients after_B))%list.
Proof.
  apply (put_status_unknown_entry after_B 7 (Some "Completed") (nine + 2000)).
  reflexivity.
Defined.

(** *** Patients known by their contact *)

Lemma resolve_existing_values (p : patient) :
  js_get (row_of_patient p) "id" = JNum (Z.of_N (p_id p)) /\
  js_get (row_of_patient p) "visit_count" = JNum (p_visit_count p) /\
  resolve_existing p = mkResolved (p_id p) true JUndefined JNaN.
Proof. repeat split. Qed.

(** C4, what the route does for a known contact.  No second patient row
    is created and the answer says [isReturning]; but the patients table
    is left exactly as it was, visit count and last visit included, and
    the visit count of the answer is not a number. *)
Theorem register_known_contact req clk w p dep :
  getPatientByContact (contact req) (db w) = Some p ->
  department req = Some dep ->
  exists token position w',
    register req clk w = (RegisterOk token position true JNaN (p_id p), w') /\
    patients (db w') = patients (db w) /\
    getPatientByContact (contact req) (db w') = Some p.
Proof.
  intros Hp Hdep.
  rewrite register_unfold, resolve_patient_unfold, Hp.
  unfold addToQueue. cbv zeta. rewrite Hdep.
  eexists _, _, _. split; [reflexivity|].
  split; [reflexivity|].
  unfold getPatientByContact in *. simpl. exact Hp.
Qed.

Lemma register_known_contact_witness :
  exists token position w',
    register patient_A (clock_at (nine + 4000)) after_done
      = (RegisterOk token position true JNaN 1, w') /\
    patients (db w') = patients (db after_done) /\
    getPatientByContact (contact patient_A) (db w')
      = Some (mkPatient 1 "A" 34 "F" "555-0001" 1767258000000 1767258000000 1).
Proof.
  apply (register_known_contact patient_A (clock_at (nine + 4000)) after_done
           (mkPatient 1 "A" 34 "F" "555-0001" 1767258000000 1767258000000 1) "GEN");
    reflexivity.
Defined.

(** *** Incomplete registrations *)

(** The design's statement on incomplete registrations does not hold: a
    request without department from a new contact fails only after the
    patient row was inserted. *)
Lemma incomplete_registration_fails_refuted : ~ incomplete_registration_fails.
Proof.
  intros H.
  destruct (H patient_C_no_department (clock_at (nine + 2000)) after_B)
    as (e & w' & Hreg & Hdb & _).
  - unfold incomplete. simpl. tauto.
  - apply (f_equal snd) in Hreg. simpl in Hreg. rewrite <- Hreg in Hdb.
    apply (f_equal (fun d => List.length (patients d))) in Hdb.
    vm_compute in Hdb. discriminate.
Qed.

Lemma insertPatient_missing now n a g c d :
  n = None \/ a = None \/ g = None \/ c = None ->
  exists col, insertPatient now n a g c d = inl (NotNullConstraint "patients" col).
Proof.
  unfold insertPatient.
  intros [-> | [-> | [-> | ->]]].
  - eexists; reflexivity.
  - destruct n; eexists; reflexivity.
  - destruct n, a; eexists; reflexivity.
  - destruct n, a, g; eexists; reflexivity.
Qed.

Lemma insertPatient_new now n a g c d :
  getPatientByContact (Some c) d = None ->
  let ts := CURRENT_TIMESTAMP now in
  let p := mkPatient (patients_seq d + 1) n a g c ts ts 1 in
  let d' := mkDatabase (patients d ++ [p]) (queue d) (patients_seq d + 1)
                       (queue_seq d) in
  insertPatient now (Some n) (Some a) (Some g) (Some c) d = inr d' /\
  selectPatientId (Some c) d' = inr (patients_seq d + 1).
Proof.
  unfold getPatientByContact. intros H. cbv zeta.
  assert (E : existsb (has_contact c) (patients d) = false).
  { destruct (existsb (has_contact c) (patients d)) eqn:E; [|reflexivity].
    apply existsb_exists in E. destruct E as (p & Hin & Hp).
    pose proof (find_none _ _ H p Hin) as F. congruence. }
  unfold insertPatient. rewrite E. split; [reflexivity|].
  unfold selectPatientId, getPatientByContact. simpl.
  rewrite find_snoc, H. unfold has_contact. simpl.
  rewrite String.eqb_refl. reflexivity.
Qed.

(** C8, as the code has it.  The route validates nothing itself.  A
    request from a contact not yet stored (a missing contact is stored
    nowhere) that lacks name, age, gender or contact is rejected by the
    NOT NULL constraint of the patients table, before anything is
    written: store and wire are as before.  A request that lacks the
    department is rejected by the queue table, with no queue row and no
    frame; when it is otherwise complete and its contact is new, the
    patient row has been written by then.  A request from a stored
    contact with a department is served whatever its name, age and
    gender. *)
Theorem register_incomplete req clk w :
  (getPatientByContact (contact req) (db w) = None ->
   name req = None \/ age req = None \/ gender req = None \/ contact req = None ->
   exists col,
     register req clk w = (Failure500 (NotNullConstraint "patients" col), w))
  /\
  (department req = None ->
   forall answer w',
     register req clk w = (answer, w') ->
     (exists e, answer = Failure500 e) /\
     queue (db w') = queue (db w) /\ wire w' = wire w)
  /\
  (forall n a g c,
      getPatientByContact (contact req) (db w) = None ->
      name req = Some n -> age req = Some a -> gender req = Some g ->
      contact req = Some c -> department req = None ->
      exists w',
        register req clk w = (Failure500 (NotNullConstraint "queue" "department"), w') /\
        patients (db w') =
          (patients (db w) ++
           [mkPatient (patients_seq (db w) + 1) n a g c
                      (CURRENT_TIMESTAMP (at_patient clk))
                      (CURRENT_TIMESTAMP (at_patient clk)) 1])%list)
  /\
  (forall p dep,
      getPatientByContact (contact req) (db w) = Some p ->
      department req = Some dep ->
      exists token position ir vc w',
        register req clk w = (RegisterOk token position ir vc (p_id p), w')).
Proof.
  split; [|split; [|split]].
  - intros Hnew Hmiss.
    destruct (insertPatient_missing (at_patient clk) _ _ _ _ (db w) Hmiss)
      as (col & Hins).
    exists col.
    rewrite register_unfold, resolve_patient_unfold, Hnew, Hins. reflexivity.
  - intros Hdep answer w' Hreg.
    destruct answer as [token position ir vc pid| |e].
    + apply register_ok_inv in Hreg.
      destruct Hreg as (dep & _ & _ & Hd & _). congruence.
    + rewrite register_unfold in Hreg.
      destruct (resolve_patient req (at_patient clk) w) as [[e|pt] w1];
        [discriminate|].
      unfold addToQueue in Hreg. rewrite Hdep in Hreg. discriminate.
    + apply register_failure_inv in Hreg.
      split; [eexists; reflexivity|]. tauto.
  - intros n a g c Hnew Hn Ha Hg Hc Hdep.
    rewrite Hc in Hnew.
    destruct (insertPatient_new (at_patient clk) n a g c (db w) Hnew) as [Hins Hsel].
    rewrite register_unfold, resolve_patient_unfold, Hn, Ha, Hg, Hc.
    rewrite Hnew, Hins, Hsel.
    unfold addToQueue. rewrite Hdep.
    eexists. split; reflexivity.
  - intros p dep Hp Hdep.
    rewrite register_unfold, resolve_patient_unfold, Hp.
    unfold addToQueue. cbv zeta. rewrite Hdep.
    eexists _, _, _, _, _. reflexivity.
Qed.

Lemma register_incomplete_witness :
  (exists col,
      register patient_D_no_name (clock_at (nine + 2000)) after_B
        = (Failure500 (NotNullConstraint "patients" col), after_B))
  /\
  (forall answer w',
      register patient_C_no_department (clock_at (nine + 2000)) after_B = (answer, w') ->
      (exists e, answer = Failure500 e) /\
      queue (db w') = queue (db after_B) /\ wire w' = wire after_B)
  /\
  (exists w',
      register patient_C_no_department (clock_at (nine + 2000)) after_B
        = (Failure500 (NotNullConstraint "queue" "department"), w') /\
      patients (db w') =
        (patients (db after_B) ++
         [mkPatient (patients_seq (db after_B) + 1) "C" 8 "M" "555-0003"
                    (CURRENT_TIMESTAMP (at_patient (clock_at (nine + 2000))))
                    (CURRENT_TIMESTAMP (at_patient (clock_at (nine + 2000)))) 1])%list)
  /\
  (exists token position ir vc w',
      register patient_A_again (clock_at (nine + 2000)) after_B
        = (RegisterOk token position ir vc 1, w')).
Proof.
  split; [|split; [|split]].
  - apply (proj1 (register_incomplete patient_D_no_name (clock_at (nine + 2000)) after_B)).
    + reflexivity.
    + left. reflexivity.
  - apply (proj1 (proj2 (register_incomplete patient_C_no_department
                           (clock_at (nine + 2000)) after_B))).
    reflexivity.
  - apply (proj1 (proj2 (proj2 (register_incomplete patient_C_no_department
                                  (clock_at (nine + 2000)) after_B))));
      reflexivity.
  - apply (proj2 (proj2 (proj2 (register_incomplete patient_A_again
                                  (clock_at (nine + 2000)) after_B)))
             (mkPatient 1 "A" 34 "F" "555-0001" 1767258000000 1767258000000 1) "GEN");
      reflexivity.
Defined.

(** [addPatient] itself, had the route called it for a known contact,
    counts the visit and refreshes the last visit. *)
Lemma addPatient_known_contact now n a g c d p :
  getPatientByContact (Some c) d = Some p ->
  exists d' p',
    addPatient now (Some n) (Some a) (Some g) (Some c) d = (inr (p_id p), d') /\
    getPatientByContact (Some c) d' = Some p' /\
    p_visit_count p' = (p_visit_count p + 1)%Z /\
    p_last_visit p' = CURRENT_TIMESTAMP now /\
    List.length (patients d') = List.length (patients d).
Proof.
  unfold getPatientByContact, addPatient, insertPatient, selectPatientId,
    getPatientByContact.
  intros H.
  assert (E : existsb (has_contact c) (patients d) = true).
  { apply existsb_exists. apply find_some in H. exists p. exact H. }
  rewrite E. cbn [patients].
  assert (F : find (has_contact c) (map (bump_visit now c) (patients d))
              = Some (bump_visit now c p)).
  { clear E. induction (patients d) as [|q l IH]; simpl in *; [discriminate|].
    unfold bump_visit at 1.
    destruct (has_contact c q) eqn:Eq.
    - injection H as <-. unfold has_contact in *. simpl. rewrite Eq.
      unfold bump_visit, has_contact. rewrite Eq. reflexivity.
    - rewrite Eq. auto. }
  rewrite F.
  assert (Hc : has_contact c p = true) by (apply find_some in H; tauto).
  assert (Hid : p_id (bump_visit now c p) = p_id p)
    by (unfold bump_visit; rewrite Hc; reflexivity).
  rewrite Hid.
  eexists _, _. split; [reflexivity|]. split; [exact F|].
  unfold bump_visit. rewrite Hc. simpl. rewrite length_map. auto.
Qed.

(** *** Fan-out to the connected clients *)

Lemma set_delete_spec (c x : N) (s : list N) :
  In x (set_delete c s) <-> In x s /\ x <> c.
Proof.
  unfold set_delete. rewrite filter_In, negb_true_iff, N.eqb_neq. tauto.
Qed.

Lemma frames_open (msg : message) (w : world) (cs : list N) (c : N) (m : message) :
  In (c, m) (frames msg w cs) <-> In c cs /\ readyState w c = OPEN /\ m = msg.
Proof.
  unfold frames, open_among. rewrite in_map_iff. split.
  - intros (x & E & Hx). injection E as -> ->.
    apply filter_In in Hx. destruct Hx as [Hin Ho].
    destruct (readyState w c) eqn:S; try discriminate. auto.
  - intros (Hin & Ho & ->). exists c. split; [reflexivity|].
    apply filter_In. rewrite Ho. auto.
Qed.

(** The answer of a route and what it leaves in the store do not depend
    on who is connected nor on the state of any socket. *)
Lemma register_blind_to_clients req clk w cs rs wr :
  fst (register req clk (mkWorld (db w) cs rs wr)) = fst (register req clk w) /\
  db (snd (register req clk (mkWorld (db w) cs rs wr))) = db (snd (register req clk w)).
Proof.
  rewrite !register_unfold, !resolve_patient_unfold. simpl.
  destruct (getPatientByContact (contact req) (db w)).
  - destruct (addToQueue _ _ _ _ _ _ _) as [[e|qid] d2]; simpl; auto.
  - destruct (insertPatient _ _ _ _ _ _); simpl; auto.
    destruct (selectPatientId _ _); simpl; auto.
    destruct (addToQueue _ _ _ _ _ _ _) as [[e|qid] d2]; simpl; auto.
Qed.

(** C9.  A broadcast never throws, whatever the state of the sockets in
    the set: it hands one frame to each open socket of the set, in the
    order of the set, and skips every socket that is not open; so a
    failed client neither reaches the writer nor keeps the frame from the
    others, and the answers of both writing routes are the same whoever
    is connected.  The [error] and [close] handlers of a socket remove it
    from the set, leaving the others, and no later broadcast addresses
    it. *)
Theorem broadcast_isolates_failed_client :
  (forall msg w,
      fst (broadcast msg w) = None /\
      wire (snd (broadcast msg w)) = (wire w ++ frames msg w (clients w))%list /\
      db (snd (broadcast msg w)) = db w /\
      clients (snd (broadcast msg w)) = clients w /\
      (forall c, In c (clients w) -> readyState w c = OPEN ->
                 In (c, msg) (frames msg w (clients w))) /\
      (forall c m, readyState w c <> OPEN -> ~ In (c, m) (frames msg w (clients w))))
  /\
  (forall req clk queueId status now w cs rs wr,
      fst (register req clk (mkWorld (db w) cs rs wr)) = fst (register req clk w) /\
      fst (put_status queueId status now (mkWorld (db w) cs rs wr)) = StatusOk)
  /\
  (forall c w,
      ~ In c (clients (on_error c w)) /\
      ~ In c (clients (on_close c w)) /\
      (forall x, x <> c -> (In x (clients (on_error c w)) <-> In x (clients w))) /\
      (forall x, x <> c -> (In x (clients (on_close c w)) <-> In x (clients w))) /\
      (forall msg m,
          ~ In (c, m) (frames msg (on_error c w) (clients (on_error c w))) /\
          ~ In (c, m) (frames msg (on_close c w) (clients (on_close c w))))).
Proof.
  split; [|split].
  - intros msg w. rewrite broadcast_frames. simpl.
    repeat split.
    + intros c Hin Ho. apply frames_open. auto.
    + intros c m Hn Hin. apply frames_open in Hin. tauto.
  - intros req clk queueId status now w cs rs wr. split.
    + apply register_blind_to_clients.
    + rewrite put_status_unfold. reflexivity.
  - intros c w. unfold on_error, on_close. simpl.
    assert (D : forall x, In x (set_delete c (clients w)) <-> In x (clients w) /\ x <> c)
      by (intros x; apply set_delete_spec).
    split; [intros Hin; apply D in Hin; tauto|].
    split; [intros Hin; apply D in Hin; tauto|].
    split; [intros x Hx; rewrite D; tauto|].
    split; [intros x Hx; rewrite D; tauto|].
    intros msg m.
    split; intros Hin; apply frames_open in Hin; simpl in Hin;
      destruct Hin as (Hin & _); apply D in Hin; tauto.
Qed.

Lemma broadcast_isolates_failed_client_witness :
  In (2, STATUS_UPDATE 1 None)
     (frames (STATUS_UPDATE 1 None) viewer_1_lost (clients viewer_1_lost)) /\
  ~ In (1, STATUS_UPDATE 1 None)
       (frames (STATUS_UPDATE 1 None) viewer_1_lost (clients viewer_1_lost)) /\
  (In 2 (clients (on_error 1 viewer_1_lost)) <-> In 2 (clients viewer_1_lost)).
Proof.
  pose proof (proj1 broadcast_isolates_failed_client (STATUS_UPDATE 1 None)
                viewer_1_lost) as (_ & _ & _ & _ & Ho & Hn).
  split; [apply Ho; [right; left; reflexivity | reflexivity] |].
  split; [apply Hn; discriminate |].
  apply (proj2 (proj2 broadcast_isolates_failed_client) 1 viewer_1_lost).
  discriminate.
Defined.

(** *** Tokens of registrations served one after another *)

Lemma register_not_StatusOk req clk w w' : register req clk w <> (StatusOk, w').
Proof.
  rewrite register_unfold.
  destruct (resolve_patient req (at_patient clk) w) as [[e|pt] w1]; [discriminate|].
  cbv zeta.
  destruct (addToQueue _ _ _ _ _ _ _) as [[e|qid] d2]; discriminate.
Qed.

(** A registration that succeeds adds one to the count of its scope; one
    that fails leaves it. *)
Lemma register_count req clk w answer w' dep day :
  register req clk w = (answer, w') ->
  department req = Some dep ->
  date_of (at_token clk) = day ->
  date_of (at_queue clk) = day ->
  match answer with
  | RegisterOk token _ _ _ _ =>
      token = dep ++ padStart 3 "0"
                (String_of_number (countEntries (Some dep) day (db w) + 1)) /\
      countEntries (Some dep) day (db w') = countEntries (Some dep) day (db w) + 1
  | _ => countEntries (Some dep) day (db w') = countEntries (Some dep) day (db w)
  end.
Proof.
  intros Hreg Hdep Ht Hq.
  destruct answer as [token position ir vc pid| |e].
  - destruct (register_token_format _ _ _ _ _ _ _ _ _ Hreg) as (dep' & Hd & Htok).
    assert (dep' = dep) by congruence. subst dep'.
    rewrite Ht in Htok. split; [exact Htok|].
    apply register_ok_inv in Hreg.
    destruct Hreg as (dep' & pt & w1 & Hd' & _ & _ & Hqueue & _).
    assert (dep' = dep) by congruence. subst dep'.
    unfold countEntries. rewrite Hqueue, filter_app, length_app. simpl.
    unfold in_scope at 2. simpl.
    rewrite String.eqb_refl, date_of_CURRENT_TIMESTAMP, Hq, N.eqb_refl. simpl.
    lia.
  - exfalso. exact (register_not_StatusOk _ _ _ _ Hreg).
  - apply register_failure_inv in Hreg. destruct Hreg as (Hqueue & _).
    apply countEntries_queue. exact Hqueue.
Qed.

Lemma serial_tokens_above dep day regs :
  Forall (within dep day) regs ->
  forall w,
    let tokens := issued_tokens (fst (serve (registrations regs) w)) in
    NoDup tokens /\
    forall t, In t tokens ->
      exists n, t = dep ++ padStart 3 "0" (String_of_number n) /\
                countEntries (Some dep) day (db w) < n.
Proof.
  induction 1 as [|[req clk] regs (Hdep & Ht & Hq) _ IH]; intros w.
  - split; [constructor | intros t []].
  - cbn [registrations map serve handle fst snd].
    destruct (register req clk w) as [answer w1] eqn:Hreg.
    specialize (IH w1). cbv zeta in IH. unfold registrations in IH.
    destruct (serve (map _ regs) w1) as [answers w2].
    cbn [fst] in *. cbv zeta.
    pose proof (register_count _ _ _ _ _ _ _ Hreg Hdep Ht Hq) as Hc.
    destruct IH as (Hnd & Habove).
    destruct answer as [token position ir vc pid| |e]; cbn [issued_tokens].
    + destruct Hc as (Htok & Hc). rewrite Hc in Habove. split.
      * constructor; [|exact Hnd].
        intros Hin. destruct (Habove _ Hin) as (n & En & Hn).
        rewrite Htok in En. apply append_cancel, padStart_number_inj in En. lia.
      * intros t [<- | Hin].
        -- eexists. split; [exact Htok | lia].
        -- destruct (Habove _ Hin) as (n & En & Hn). exists n. split; [exact En | lia].
    + rewrite Hc in Habove. auto.
    + rewrite Hc in Habove. auto.
Qed.

Ltac run_statement :=
  repeat progress
    (cbn [alone step reading_for contact name age gender department symptoms
          db set_db];
     unfold addToQueue).

(** A registration run alone, statement after statement, is the route
    [register]. *)
Lemma alone_is_register req clk w :
  alone clk 6 (AwaitLookup req) w =
  (Finished (fst (register req clk w)), snd (register req clk w)).
Proof.
  rewrite register_unfold, resolve_patient_unfold.
  destruct req as [n a g c d s].
  run_statement.
  destruct (getPatientByContact c (db w)) as [p|]; run_statement.
  - destruct d as [dep|]; run_statement; [|reflexivity].
    rewrite broadcast_frames. reflexivity.
  - destruct (insertPatient (at_patient clk) n a g c (db w)) as [e|d'];
      run_statement; [reflexivity|].
    destruct (selectPatientId c d') as [e|i]; run_statement; [reflexivity|].
    destruct d as [dep|]; run_statement; [|reflexivity].
    rewrite broadcast_frames. reflexivity.
Qed.

(** The design's statement on interleaved registrations does not hold:
    two registrations of GEN whose statements alternate both count no
    row before either inserts, and both are issued GEN001. *)
Lemma interleaved_tokens_distinct_refuted : ~ interleaved_tokens_distinct.
Proof.
  intros H.
  specialize (H "GEN" 20454 [patient_A; patient_B] in_turn initial_world
                (fst (run_schedule in_turn (map AwaitLookup [patient_A; patient_B])
                                   initial_world))
                (snd (run_schedule in_turn (map AwaitLookup [patient_A; patient_B])
                                   initial_world))).
  assert (S : one_scope "GEN" 20454 [patient_A; patient_B] in_turn).
  { split; repeat constructor. }
  specialize (H S (surjective_pairing _)).
  vm_compute in H.
  inversion H as [|t l Hnotin _]. apply Hnotin. left. reflexivity.
Qed.

(** C1, as the code has it.  Registrations of one department and day
    served one after another, none starting before the one before it has
    ended, are issued pairwise distinct tokens, whatever the store they
    start from: each token carries a number above the count of the rows of
    the scope at the start, and every success raises that count by one.
    Nothing in the routes serialises registrations whose statements
    interleave. *)
Theorem serial_tokens_distinct dep day regs w :
  Forall (within dep day) regs ->
  NoDup (issued_tokens (fst (serve (registrations regs) w))).
Proof.
  intros H. apply (serial_tokens_above dep day regs H w).
Qed.

Lemma serial_tokens_distinct_witness :
  NoDup (issued_tokens
           (fst (serve (registrations
                          [(patient_A, clock_at nine);
                           (patient_B, clock_at (nine + 1000));
                           (patient_A_again, clock_at (nine + 2000))])
                       initial_world))).
Proof.
  apply (serial_tokens_distinct "GEN" 20454).
  repeat constructor.
Defined.

(** *** Entries over a history *)

Lemma run_app rs1 rs2 w : run (rs1 ++ rs2) w = run rs2 (run rs1 w).
Proof. unfold run. apply fold_left_app. Qed.

Lemma run_snoc rs r w : run (rs ++ [r]) w = snd (handle r (run rs w)).
Proof. rewrite run_app. reflexivity. Qed.

(** What a registration does to the queue: nothing, or one row more. *)
Lemma register_queue_effect req clk w :
  let w' := snd (register req clk w) in
  (queue (db w') = queue (db w) /\ queue_seq (db w') = queue_seq (db w))
  \/
  (exists pid token dep,
      queue (db w') =
        (queue (db w) ++
         [mkQueueRow (queue_seq (db w) + 1) pid token dep (symptoms req)
                     (Some "Waiting") (CURRENT_TIMESTAMP (at_queue clk)) None None])%list /\
      queue_seq (db w') = queue_seq (db w) + 1).
Proof.
  cbv zeta.
  destruct (register req clk w) as [answer w'] eqn:Hreg.
  destruct answer as [token position ir vc pid| |e]; simpl.
  - right. apply register_ok_inv in Hreg.
    destruct Hreg as (dep & pt & w1 & _ & _ & _ & Hq & Hs & _).
    exists pid, token, dep. auto.
  - exfalso. exact (register_not_StatusOk _ _ _ _ Hreg).
  - left. apply register_failure_inv in Hreg. tauto.
Qed.

(** How one request changes the entry an id names. *)
Lemma handle_entry_some r w i e :
  find_entry i w = Some e ->
  find_entry i (snd (handle r w)) = Some e \/
  (exists st now,
      r = PutStatus i st now /\
      find_entry i (snd (handle r w)) = Some (set_status st now e)).
Proof.
  intros H. destruct r as [req clk | j st now]; simpl.
  - left. unfold find_entry in *.
    destruct (register_queue_effect req clk w) as [(Hq & _) | (pid & token & dep & Hq & _)];
      rewrite Hq.
    + exact H.
    + rewrite find_snoc, H. reflexivity.
  - destruct (N.eq_dec i j) as [<- | Hne].
    + right. exists st, now. split; [reflexivity|].
      apply put_status_find_hit. exact H.
    + left. rewrite put_status_find_miss by exact Hne. exact H.
Qed.

Lemma handle_entry_none r w i :
  find_entry i w = None ->
  find_entry i (snd (handle r w)) = None \/
  (exists req clk e,
      r = Register req clk /\
      find_entry i (snd (handle r w)) = Some e /\
      just_registered (at_queue clk) e).
Proof.
  intros H. destruct r as [req clk | j st now]; simpl.
  - unfold find_entry in *.
    destruct (register_queue_effect req clk w) as [(Hq & _) | (pid & token & dep & Hq & _)];
      rewrite Hq.
    + left. exact H.
    + rewrite find_snoc, H. simpl.
      destruct (queue_seq (db w) + 1 =? i); [right | left; reflexivity].
      eexists req, clk, _. split; [reflexivity|]. split; [reflexivity|].
      repeat split.
  - left. destruct (N.eq_dec i j) as [<- | Hne].
    + unfold find_entry in *. rewrite put_status_unfold.
      rewrite updateQueueStatus_unknown by exact H. exact H.
    + rewrite put_status_find_miss by exact Hne. exact H.
Qed.

(** An entry, once in the queue, stays in it. *)
Lemma entry_persists later w i e :
  find_entry i w = Some e ->
  exists e', find_entry i (run later w) = Some e'.
Proof.
  revert w e. induction later as [|r later IH]; intros w e H.
  - exists e. exact H.
  - simpl. destruct (handle_entry_some r w i e H) as [H' | (st & now & _ & H')];
      eapply IH; exact H'.
Qed.

Lemma split_snoc {A : Type} (rs before after : list A) (r : A) :
  (rs ++ [r] = before ++ after)%list ->
  (after = [] /\ before = (rs ++ [r])%list) \/
  (exists after', after = (after' ++ [r])%list /\ rs = (before ++ after')%list).
Proof.
  intros H. destruct after as [|a after] using rev_ind.
  - left. rewrite List.app_nil_r in H. auto.
  - right. rewrite List.app_assoc in H. apply app_inj_tail in H.
    destruct H as [-> ->]. exists after. auto.
Qed.

Lemma passed_through_snoc s i w0 rs r :
  passed_through s i w0 (rs ++ [r]) <->
  passed_through s i w0 rs \/
  (exists e, find_entry i (run (rs ++ [r]) w0) = Some e /\ q_status e = Some s).
Proof.
  unfold passed_through. split.
  - intros (before & after & e & Hsplit & Hfind & Hst).
    destruct (split_snoc _ _ _ _ Hsplit) as [(-> & ->) | (after' & -> & ->)].
    + right. exists e. auto.
    + left. exists before, after', e. auto.
  - intros [(before & after & e & -> & Hfind & Hst) | (e & Hfind & Hst)].
    + exists before, (after ++ [r])%list, e. rewrite List.app_assoc. auto.
    + exists (rs ++ [r])%list, [], e. rewrite List.app_nil_r. auto.
Qed.

Lemma is_status_true s st : is_status s st = true <-> st = Some s.
Proof.
  unfold is_status. destruct st as [s'|].
  - rewrite String.eqb_eq. split; congruence.
  - split; discriminate.
Qed.

Lemma is_status_false s st : is_status s st = false <-> st <> Some s.
Proof.
  rewrite <- is_status_true. destruct (is_status s st); split; congruence.
Qed.

Lemma set_status_stamped st now e : stamped (set_status st now e).
Proof.
  unfold stamped, is_set.
  rewrite set_status_status, set_status_called_at, set_status_completed_at.
  split; intros H.
  - apply is_status_true in H. rewrite H. discriminate.
  - assert (H1 : is_status "In Progress" st = false)
      by (apply is_status_false; rewrite H; discriminate).
    apply is_status_true in H. rewrite H1, H. discriminate.
Qed.

(** The entry of every id, after every history from an empty queue, is
    stamped, and has each timestamp exactly when it passed through the
    status that sets it. *)
Lemma history_invariant w0 rs :
  queue (db w0) = [] ->
  forall i e,
    find_entry i (run rs w0) = Some e ->
    stamped e /\
    (is_set (q_called_at e) <-> passed_through "In Progress" i w0 rs) /\
    (is_set (q_completed_at e) <-> passed_through "Completed" i w0 rs).
Proof.
  intros Hempty.
  induction rs as [|r rs IH] using rev_ind; intros i e Hfind.
  - unfold find_entry in Hfind. simpl in Hfind. rewrite Hempty in Hfind. discriminate.
  - rewrite !passed_through_snoc.
    pose proof Hfind as Hfind'. rewrite run_snoc in Hfind'.
    destruct (find_entry i (run rs w0)) as [e0|] eqn:H0.
    + destruct (IH i e0 H0) as (Hst0 & Hc0 & Hd0).
      destruct (handle_entry_some r _ i e0 H0) as [H1 | (st & now & -> & H1)];
        rewrite H1 in Hfind'; injection Hfind' as <-.
      * split; [exact Hst0|].
        split; split.
        -- intros H. left. apply Hc0, H.
        -- intros [H | (e1 & He1 & Hs1)]; [apply Hc0, H|].
           rewrite Hfind in He1. injection He1 as <-. apply Hst0, Hs1.
        -- intros H. left. apply Hd0, H.
        -- intros [H | (e1 & He1 & Hs1)]; [apply Hd0, H|].
           rewrite Hfind in He1. injection He1 as <-. apply Hst0, Hs1.
      * pose proof (set_status_stamped st now e0) as Hst1.
        split; [exact Hst1|].
        split; split.
        -- intros H. rewrite set_status_called_at in H.
           destruct (is_status "In Progress" st) eqn:E.
           ++ right. exists (set_status st now e0). split; [exact Hfind|].
              rewrite set_status_status. apply is_status_true, E.
           ++ left. apply Hc0, H.
        -- intros [H | (e1 & He1 & Hs1)].
           ++ apply Hc0 in H. rewrite set_status_called_at.
              destruct (is_status "In Progress" st); [discriminate | exact H].
           ++ rewrite Hfind in He1. injection He1 as <-. apply Hst1, Hs1.
        -- intros H. rewrite set_status_completed_at in H.
           destruct (is_status "In Progress" st) eqn:E1; [left; apply Hd0, H|].
           destruct (is_status "Completed" st) eqn:E2.
           ++ right. exists (set_status st now e0). split; [exact Hfind|].
              rewrite set_status_status. apply is_status_true, E2.
           ++ left. apply Hd0, H.
        -- intros [H | (e1 & He1 & Hs1)].
           ++ apply Hd0 in H. rewrite set_status_completed_at.
              destruct (is_status "In Progress" st); [exact H|].
              destruct (is_status "Completed" st); [discriminate | exact H].
           ++ rewrite Hfind in He1. injection He1 as <-. apply Hst1, Hs1.
    + destruct (handle_entry_none r _ i H0) as [H1 | (req & clk & e1 & -> & H1 & Hj)];
        rewrite H1 in Hfind'; [discriminate|]. injection Hfind' as <-.
      destruct Hj as (Hs & Hc & Hd & _).
      assert (Hnever : forall s, ~ passed_through s i w0 rs).
      { intros s (before & after & e0 & -> & Hb & _).
        destruct (entry_persists after _ i e0 Hb) as (e2 & He2).
        rewrite run_app in H0. congruence. }
      unfold stamped, is_set. rewrite Hs, Hc, Hd.
      split; [split; discriminate|].
      split; split; try congruence.
      * intros [H | (e2 & He2 & Hs2)]; [destruct (Hnever _ H)|].
        rewrite Hfind in He2. injection He2 as <-. congruence.
      * intros [H | (e2 & He2 & Hs2)]; [destruct (Hnever _ H)|].
        rewrite Hfind in He2. injection He2 as <-. congruence.
Qed.

(** *** Timestamps under a clock that never goes back *)

Lemma nondecreasing_from_app lo l1 l2 :
  nondecreasing_from lo (l1 ++ l2) <->
  nondecreasing_from lo l1 /\ nondecreasing_from (last_reading lo l1) l2.
Proof.
  revert lo. induction l1 as [|t l1 IH]; intros lo; simpl.
  - tauto.
  - rewrite IH. unfold last_reading. simpl. tauto.
Qed.

Lemma last_reading_app lo l1 l2 :
  last_reading lo (l1 ++ l2) = last_reading (last_reading lo l1) l2.
Proof. unfold last_reading. apply fold_left_app. Qed.

Lemma nondecreasing_from_last lo l :
  nondecreasing_from lo l -> lo <= last_reading lo l.
Proof.
  revert lo. induction l as [|t l IH]; intros lo; simpl.
  - intros _. apply N.le_refl.
  - intros [H1 H2]. apply IH in H2. unfold last_reading in *. simpl. lia.
Qed.

Lemma timestamps_ok_later hi hi' e :
  hi <= hi' -> timestamps_ok hi e -> timestamps_ok hi' e.
Proof.
  intros Hle (Hr & Hc & Hd & Ho). unfold timestamps_ok.
  split; [lia|]. split; [|split].
  - intros t Ht. specialize (Hc t Ht). lia.
  - intros t Ht. specialize (Hd t Ht). lia.
  - exact Ho.
Qed.

Lemma set_status_timestamps_ok hi now st e :
  timestamps_ok hi e -> hi <= now -> timestamps_ok now (set_status st now e).
Proof.
  intros (Hr & Hc & Hd & Ho) Hle. unfold timestamps_ok.
  rewrite set_status_registered_at, set_status_called_at,
    set_status_completed_at, set_status_status.
  split; [lia|].
  destruct (is_status "In Progress" st) eqn:E1.
  - split; [|split].
    + intros t Ht. injection Ht as <-. lia.
    + intros t Ht. specialize (Hd t Ht). lia.
    + intros Hs. apply is_status_true in E1. rewrite E1 in Hs. discriminate.
  - destruct (is_status "Completed" st) eqn:E2.
    + split; [|split].
      * intros t Ht. specialize (Hc t Ht). lia.
      * intros t Ht. injection Ht as <-. lia.
      * intros _ tc td Htc Htd. injection Htd as <-.
        specialize (Hc tc Htc). lia.
    + split; [|split].
      * intros t Ht. specialize (Hc t Ht). lia.
      * intros t Ht. specialize (Hd t Ht). lia.
      * intros Hs. apply is_status_false in E2. contradiction.
Qed.

Lemma not_after_refl a : not_after a a.
Proof. destruct a; simpl; [apply N.le_refl | exact I]. Qed.

Lemma not_after_trans a b c : not_after a b -> not_after b c -> not_after a c.
Proof.
  destruct a, b, c; simpl; try tauto. intros; lia.
Qed.

Lemma set_status_not_after hi now st e :
  timestamps_ok hi e -> hi <= now ->
  not_after (q_called_at e) (q_called_at (set_status st now e)) /\
  not_after (q_completed_at e) (q_completed_at (set_status st now e)).
Proof.
  intros (Hr & Hc & Hd & Ho) Hle.
  rewrite set_status_called_at, set_status_completed_at.
  destruct (is_status "In Progress" st).
  - split; [|apply not_after_refl].
    destruct (q_called_at e) as [t|]; simpl; [|exact I].
    specialize (Hc t eq_refl). lia.
  - split; [apply not_after_refl|].
    destruct (is_status "Completed" st); [|apply not_after_refl].
    destruct (q_completed_at e) as [t|]; simpl; [|exact I].
    specialize (Hd t eq_refl). lia.
Qed.

Lemma handle_bounded r w hi :
  bounded hi w ->
  nondecreasing_from hi (readings r) ->
  bounded (last_reading hi (readings r)) (snd (handle r w)).
Proof.
  intros Hb Hnd i e' Hfind.
  pose proof (nondecreasing_from_last _ _ Hnd) as Hlast.
  destruct (find_entry i w) as [e|] eqn:H0.
  - destruct (handle_entry_some r w i e H0) as [H1 | (st & now & -> & H1)];
      rewrite H1 in Hfind; injection Hfind as <-.
    + eapply timestamps_ok_later; [exact Hlast | exact (Hb i e H0)].
    + simpl in Hnd. unfold last_reading. simpl.
      apply (set_status_timestamps_ok hi); [exact (Hb i e H0) | tauto].
  - destruct (handle_entry_none r w i H0) as [H1 | (req & clk & e1 & -> & H1 & Hj)];
      rewrite H1 in Hfind; [discriminate|]. injection Hfind as <-.
    destruct Hj as (Hs & Hc & Hd & Hr).
    simpl in Hnd. unfold last_reading. simpl.
    pose proof (CURRENT_TIMESTAMP_le (at_queue clk)) as Hct.
    unfold timestamps_ok. rewrite Hs, Hc, Hd, Hr.
    split; [lia|]. repeat split; discriminate.
Qed.

Lemma run_bounded rs hi w :
  bounded hi w ->
  nondecreasing_from hi (flat_map readings rs) ->
  bounded (last_reading hi (flat_map readings rs)) (run rs w).
Proof.
  revert hi w. induction rs as [|r rs IH]; intros hi w Hb Hnd.
  - exact Hb.
  - simpl in *. apply nondecreasing_from_app in Hnd. destruct Hnd as [H1 H2].
    rewrite last_reading_app. apply IH; [|exact H2].
    apply handle_bounded; assumption.
Qed.

(** Over what follows, a timestamp that is set stays set and does not
    decrease. *)
Lemma later_not_after later hi w i e :
  bounded hi w ->
  nondecreasing_from hi (flat_map readings later) ->
  find_entry i w = Some e ->
  exists e',
    find_entry i (run later w) = Some e' /\
    not_after (q_called_at e) (q_called_at e') /\
    not_after (q_completed_at e) (q_completed_at e').
Proof.
  revert hi w e. induction later as [|r later IH]; intros hi w e Hb Hnd Hfind.
  - exists e. split; [exact Hfind|]. split; apply not_after_refl.
  - simpl in *. apply nondecreasing_from_app in Hnd. destruct Hnd as [H1 H2].
    pose proof (handle_bounded r w hi Hb H1) as Hb1.
    destruct (handle_entry_some r w i e Hfind) as [Hf | (st & now & -> & Hf)].
    + exact (IH _ _ _ Hb1 H2 Hf).
    + destruct (IH _ _ _ Hb1 H2 Hf) as (e' & He' & Hc & Hd).
      exists e'. split; [exact He'|].
      simpl in H1.
      destruct (set_status_not_after hi now st e (Hb i e Hfind)) as [Hc0 Hd0];
        [tauto|].
      split; eapply not_after_trans; eassumption.
Qed.

(** *** Queue ids *)

Lemma handle_ids_fresh r w : ids_fresh w -> ids_fresh (snd (handle r w)).
Proof.
  intros [Hnd Hle]. unfold ids_fresh.
  destruct r as [req clk | j st now]; simpl.
  - destruct (register_queue_effect req clk w)
      as [(Hq & Hs) | (pid & token & dep & Hq & Hs)]; rewrite Hq, Hs.
    + auto.
    + split.
      * rewrite map_app. simpl.
        apply NoDup_app; [exact Hnd | repeat constructor; auto |].
        intros x Hx [<- | []].
        apply in_map_iff in Hx. destruct Hx as (r & Hr & Hin).
        rewrite Forall_forall in Hle. specialize (Hle r Hin). lia.
      * apply Forall_app. split.
        -- eapply Forall_impl; [|exact Hle]. simpl. intros; lia.
        -- repeat constructor. simpl. lia.
  - rewrite put_status_unfold. simpl. split.
    + rewrite map_map.
      erewrite map_ext; [exact Hnd|].
      intros r. simpl. destruct (q_id r =? j); [apply set_status_id | reflexivity].
    + rewrite Forall_map. eapply Forall_impl; [|exact Hle].
      simpl. intros r Hr.
      destruct (q_id r =? j); [rewrite set_status_id|]; exact Hr.
Qed.

Lemma run_ids_fresh rs w : ids_fresh w -> ids_fresh (run rs w).
Proof.
  revert w. induction rs as [|r rs IH]; intros w H; simpl.
  - exact H.
  - apply IH, handle_ids_fresh, H.
Qed.

Lemma find_of_In (l : list queue_row) (r : queue_row) :
  NoDup (map q_id l) -> In r l ->
  find (fun x => q_id x =? q_id r) l = Some r.
Proof.
  induction l as [|x l IH]; simpl; intros Hnd Hin; [contradiction|].
  inversion Hnd as [|? ? Hnotin Hnd']; subst.
  destruct Hin as [-> | Hin].
  - rewrite N.eqb_refl. reflexivity.
  - destruct (q_id x =? q_id r) eqn:E.
    + apply N.eqb_eq in E. exfalso. apply Hnotin. rewrite E.
      apply in_map. exact Hin.
    + apply IH; assumption.
Qed.

(** The design's statement on timestamps does not hold: nothing orders
    the status updates, so an entry marked Completed and then In Progress
    ends with its call after its completion. *)
Lemma timestamps_follow_lifecycle_refuted : ~ timestamps_follow_lifecycle.
Proof.
  intros H.
  destruct (H done_then_called
              (mkQueueRow 1 1 "GEN001" "GEN" (Some "fever") (Some "In Progress")
                          1767258000000 (Some (nine + 2000)) (Some (nine + 1000))))
    as (_ & _ & _ & Hord).
  - unfold clock_monotone. simpl. repeat split; apply N.leb_le; reflexivity.
  - left. reflexivity.
  - destruct (Hord (nine + 2000) (nine + 1000) eq_refl eq_refl) as [_ Hle].
    apply N.leb_le in Hle. discriminate.
Qed.

(** C5, as the code has it.  Over any history of requests served from an
    empty queue under a clock that never goes back, for every entry:
    [called_at] is set exactly when the entry has passed through In
    Progress and [completed_at] exactly when it has passed through
    Completed; whatever follows, a timestamp that is set stays set and
    does not decrease; each timestamp that is set is no earlier than the
    registration; and on an entry that is Completed the call is no later
    than the completion.  Status updates are applied in any order, so the
    last does not hold of an entry put back to In Progress. *)
Theorem timestamps_follow_status_updates w0 rs r :
  queue (db w0) = [] ->
  clock_monotone rs ->
  In r (queue (db (run rs w0))) ->
  (is_set (q_called_at r) <-> passed_through "In Progress" (q_id r) w0 rs) /\
  (is_set (q_completed_at r) <-> passed_through "Completed" (q_id r) w0 rs) /\
  (forall later,
      clock_monotone (rs ++ later) ->
      exists r',
        find_entry (q_id r) (run (rs ++ later) w0) = Some r' /\
        not_after (q_called_at r) (q_called_at r') /\
        not_after (q_completed_at r) (q_completed_at r')) /\
  (forall t, q_called_at r = Some t -> q_registered_at r <= t) /\
  (forall t, q_completed_at r = Some t -> q_registered_at r <= t) /\
  (q_status r = Some "Completed" ->
   forall tc td, q_called_at r = Some tc -> q_completed_at r = Some td -> tc <= td).
Proof.
  intros Hempty Hmono Hin.
  assert (Hfresh : ids_fresh (run rs w0)).
  { apply run_ids_fresh. unfold ids_fresh. rewrite Hempty. split; constructor. }
  assert (Hfind : find_entry (q_id r) (run rs w0) = Some r).
  { apply find_of_In; [apply Hfresh | exact Hin]. }
  assert (Hb0 : bounded 0 w0).
  { intros i e He. unfold find_entry in He. rewrite Hempty in He. discriminate. }
  pose proof (run_bounded rs 0 w0 Hb0 Hmono) as Hb.
  destruct (history_invariant w0 rs Hempty _ _ Hfind) as (_ & Hc & Hd).
  destruct (Hb _ _ Hfind) as (_ & Hrc & Hrd & Hord).
  split; [exact Hc|]. split; [exact Hd|]. split; [|split; [|split]].
  - intros later Hlater. unfold clock_monotone in Hlater.
    rewrite flat_map_app in Hlater. apply nondecreasing_from_app in Hlater.
    rewrite run_app.
    exact (later_not_after later _ _ _ _ Hb (proj2 Hlater) Hfind).
  - intros t Ht. apply (Hrc t Ht).
  - intros t Ht. apply (Hrd t Ht).
  - exact Hord.
Qed.

Lemma timestamps_follow_status_updates_witness :
  let r := mkQueueRow 1 1 "GEN001" "GEN" (Some "fever") (Some "Completed")
                      1767258000000 (Some (nine + 2000)) (Some (nine + 3000)) in
  (is_set (q_called_at r) <->
     passed_through "In Progress" (q_id r) initial_world a_normal_morning) /\
  (is_set (q_completed_at r) <->
     passed_through "Completed" (q_id r) initial_world a_normal_morning) /\
  (forall later,
      clock_monotone (a_normal_morning ++ later) ->
      exists r',
        find_entry (q_id r) (run (a_normal_morning ++ later) initial_world) = Some r' /\
        not_after (q_called_at r) (q_called_at r') /\
        not_after (q_completed_at r) (q_completed_at r')) /\
  (forall t, q_called_at r = Some t -> q_registered_at r <= t) /\
  (forall t, q_completed_at r = Some t -> q_registered_at r <= t) /\
  (q_status r = Some "Completed" ->
   forall tc td, q_called_at r = Some tc -> q_completed_at r = Some td -> tc <= td).
Proof.
  apply (timestamps_follow_status_updates initial_world a_normal_morning).
  - reflexivity.
  - unfold clock_monotone. simpl. repeat split; apply N.leb_le; reflexivity.
  - left. reflexivity.
Defined.

(* ================================================================== *)
(** ** Further properties of the store and the routes *)
(* ================================================================== *)

Import Queries Integrity.

(** *** Patients *)

Lemma bump_visit_contact now c p : p_contact (bump_visit now c p) = p_contact p.
Proof. unfold bump_visit. destruct (has_contact c p); reflexivity. Qed.

Lemma bump_visit_id now c p : p_id (bump_visit now c p) = p_id p.
Proof. unfold bump_visit. destruct (has_contact c p); reflexivity. Qed.

Lemma find_map_bump now c c' (l : list patient) :
  find (has_contact c') (map (bump_visit now c) l)
  = option_map (bump_visit now c) (find (has_contact c') l).
Proof.
  induction l as [|p l IH]; simpl; [reflexivity|].
  unfold has_contact at 1. rewrite bump_visit_contact.
  fold (has_contact c' p). destruct (has_contact c' p); [reflexivity | exact IH].
Qed.

Lemma existsb_has_contact c (l : list patient) :
  existsb (has_contact c) l = true <-> find (has_contact c) l <> None.
Proof.
  induction l as [|p l IH]; simpl.
  - split; [discriminate | congruence].
  - destruct (has_contact c p); simpl; [split; [discriminate | reflexivity] | exact IH].
Qed.

(** X1.  [addPatient] for a contact not yet stored and with all four
    fields present inserts one patient, with the next id, the fields as
    given, visit count 1 and both timestamps at the second of the
    insertion, and returns that id; the patient is then found by its
    contact, every other contact is found as before, and the queue is
    untouched. *)
Theorem addPatient_new_contact now n a g c d :
  getPatientByContact (Some c) d = None ->
  exists d',
    addPatient now (Some n) (Some a) (Some g) (Some c) d
      = (inr (patients_seq d + 1), d') /\
    getPatientByContact (Some c) d'
      = Some (mkPatient (patients_seq d + 1) n a g c
                        (CURRENT_TIMESTAMP now) (CURRENT_TIMESTAMP now) 1) /\
    (forall c', c' <> c ->
                getPatientByContact (Some c') d' = getPatientByContact (Some c') d) /\
    List.length (patients d') = S (List.length (patients d)) /\
    queue d' = queue d.
Proof.
  intros H.
  destruct (insertPatient_new now n a g c d H) as [Hins Hsel].
  cbv zeta in Hins, Hsel.
  eexists. unfold addPatient. rewrite Hins, Hsel.
  split; [reflexivity|].
  unfold getPatientByContact in *. simpl.
  split; [|split; [|split]].
  - rewrite find_snoc, H. unfold has_contact. simpl.
    rewrite String.eqb_refl. reflexivity.
  - intros c' Hne. rewrite find_snoc.
    destruct (find (has_contact c') (patients d)); [reflexivity|].
    unfold has_contact. simpl.
    destruct (String.eqb_spec c c'); [congruence | reflexivity].
  - rewrite length_app. simpl. lia.
  - reflexivity.
Qed.

Lemma addPatient_new_contact_witness :
  exists d',
    addPatient nine (Some "C") (Some 8%Z) (Some "M") (Some "555-0003") (db after_B)
      = (inr (patients_seq (db after_B) + 1), d') /\
    getPatientByContact (Some "555-0003") d'
      = Some (mkPatient (patients_seq (db after_B) + 1) "C" 8 "M" "555-0003"
                        (CURRENT_TIMESTAMP nine) (CURRENT_TIMESTAMP nine) 1) /\
    (forall c', c' <> "555-0003" ->
                getPatientByContact (Some c') d'
                = getPatientByContact (Some c') (db after_B)) /\
    List.length (patients d') = S (List.length (patients (db after_B))) /\
    queue d' = queue (db after_B).
Proof.
  apply (addPatient_new_contact nine "C" 8%Z "M" "555-0003" (db after_B)).
  reflexivity.
Defined.

(** X2.  [addPatient] for a contact already stored, all four fields
    present, inserts nothing: it returns the id of the stored patient,
    adds one to its visit count and sets its last visit to the second of
    the call; id, name, age, gender, contact and creation time stay as
    stored, whatever name, age and gender the call carries; every other
    contact is found as before.  The call uses up an id all the same: the
    sequence of patient ids advances by one, so the next new patient
    skips a number. *)
Theorem addPatient_stored_contact now n a g c d p :
  getPatientByContact (Some c) d = Some p ->
  exists d',
    addPatient now (Some n) (Some a) (Some g) (Some c) d = (inr (p_id p), d') /\
    getPatientByContact (Some c) d'
      = Some (mkPatient (p_id p) (p_name p) (p_age p) (p_gender p) (p_contact p)
                        (p_created_at p) (CURRENT_TIMESTAMP now)
                        (p_visit_count p + 1)) /\
    (forall c', c' <> c ->
                getPatientByContact (Some c') d' = getPatientByContact (Some c') d) /\
    List.length (patients d') = List.length (patients d) /\
    patients_seq d' = patients_seq d + 1 /\
    queue d' = queue d.
Proof.
  unfold getPatientByContact. intros H.
  assert (E : existsb (has_contact c) (patients d) = true).
  { apply existsb_has_contact. rewrite H. discriminate. }
  assert (Hc : has_contact c p = true) by (apply find_some in H; tauto).
  unfold addPatient, insertPatient. rewrite E.
  unfold selectPatientId, getPatientByContact. cbn [patients].
  rewrite find_map_bump, H. cbn [option_map].
  rewrite bump_visit_id.
  eexists. split; [reflexivity|]. cbn [patients queue patients_seq].
  split; [|split; [|split; [|split]]].
  - rewrite find_map_bump, H. simpl. unfold bump_visit. rewrite Hc. reflexivity.
  - intros c' Hne. rewrite find_map_bump.
    destruct (find (has_contact c') (patients d)) as [p'|] eqn:F; [|reflexivity].
    simpl. apply find_some in F. destruct F as [_ F].
    unfold bump_visit.
    destruct (has_contact c p') eqn:F'; [|reflexivity].
    unfold has_contact in F, F'. apply String.eqb_eq in F, F'. congruence.
  - apply length_map.
  - reflexivity.
  - reflexivity.
Qed.

Lemma addPatient_stored_contact_witness :
  exists d',
    addPatient (nine + 5000) (Some "Another name") (Some 35%Z) (Some "F")
               (Some "555-0001") (db after_B) = (inr 1, d') /\
    getPatientByContact (Some "555-0001") d'
      = Some (mkPatient 1 "A" 34 "F" "555-0001" 1767258000000
                        (CURRENT_TIMESTAMP (nine + 5000)) (1 + 1)) /\
    (forall c', c' <> "555-0001" ->
                getPatientByContact (Some c') d'
                = getPatientByContact (Some c') (db after_B)) /\
    List.length (patients d') = List.length (patients (db after_B)) /\
    patients_seq d' = patients_seq (db after_B) + 1 /\
    queue d' = queue (db after_B).
Proof.
  apply (addPatient_stored_contact (nine + 5000) "Another name" 35%Z "F" "555-0001"
           (db after_B)
           (mkPatient 1 "A" 34 "F" "555-0001" 1767258000000 1767258000000 1)).
  reflexivity.
Defined.

(** *** Contacts stay unique *)

Lemma insertPatient_contacts_unique now n a g c d d' :
  contacts_unique d ->
  insertPatient now n a g c d = inr d' ->
  contacts_unique d'.
Proof.
  unfold contacts_unique, insertPatient. intros Hnd.
  destruct n as [n|], a as [a|], g as [g|], c as [c|]; try discriminate.
  destruct (existsb (has_contact c) (patients d)) eqn:E;
    intros H; injection H as <-; simpl.
  - rewrite map_map. erewrite map_ext; [exact Hnd|].
    intros p. apply bump_visit_contact.
  - rewrite map_app. simpl.
    apply NoDup_app; [exact Hnd | repeat constructor; auto |].
    intros x Hx [Ex | []]. subst x.
    apply in_map_iff in Hx. destruct Hx as (p & Hp & Hin).
    assert (T : existsb (has_contact c) (patients d) = true).
    { apply existsb_exists. exists p. split; [exact Hin|].
      unfold has_contact. rewrite Hp. apply String.eqb_refl. }
    congruence.
Qed.

(** What resolving the patient of a registration does to the store:
    nothing, or one patient more, of a contact not stored before. *)
Lemma resolve_patient_effect req now w r w1 :
  resolve_patient req now w = (r, w1) ->
  (db w1 = db w /\
   forall pt, r = inr pt ->
     exists p, getPatientByContact (contact req) (db w) = Some p /\
               pt = resolve_existing p)
  \/
  (exists n a g c,
      name req = Some n /\ age req = Some a /\ gender req = Some g /\
      contact req = Some c /\
      getPatientByContact (Some c) (db w) = None /\
      db w1 = mkDatabase
                (patients (db w) ++
                 [mkPatient (patients_seq (db w) + 1) n a g c
                            (CURRENT_TIMESTAMP now) (CURRENT_TIMESTAMP now) 1])
                (queue (db w)) (patients_seq (db w) + 1) (queue_seq (db w)) /\
      r = inr (resolve_new (patients_seq (db w) + 1))).
Proof.
  rewrite resolve_patient_unfold.
  destruct (getPatientByContact (contact req) (db w)) as [p|] eqn:Hp.
  - intros H; injection H as <- <-. left. split; [reflexivity|].
    intros pt Hpt. injection Hpt as <-. exists p. auto.
  - destruct (name req) as [n|] eqn:Hn, (age req) as [a|] eqn:Ha,
      (gender req) as [g|] eqn:Hg, (contact req) as [c|] eqn:Hc;
      try (simpl; intros H; injection H as <- <-; left;
           split; [reflexivity | discriminate]).
    destruct (insertPatient_new now n a g c (db w) Hp) as [Hins Hsel].
    cbv zeta in Hins, Hsel. rewrite Hins, Hsel.
    intros H; injection H as <- <-. right.
    exists n, a, g, c. simpl. auto 10.
Qed.

Lemma register_patients req clk w :
  exists r w1,
    resolve_patient req (at_patient clk) w = (r, w1) /\
    patients (db (snd (register req clk w))) = patients (db w1) /\
    patients_seq (db (snd (register req clk w))) = patients_seq (db w1).
Proof.
  rewrite register_unfold.
  destruct (resolve_patient req (at_patient clk) w) as [[e|pt] w1] eqn:R.
  - exists (inl e), w1. auto.
  - exists (inr pt), w1. split; [reflexivity|].
    unfold addToQueue. cbv zeta.
    destruct (department req); simpl; auto.
Qed.

Lemma put_status_patients i st now w :
  patients (db (snd (put_status i st now w))) = patients (db w) /\
  patients_seq (db (snd (put_status i st now w))) = patients_seq (db w).
Proof. rewrite put_status_unfold. simpl. auto. Qed.

Lemma handle_contacts_unique r w :
  contacts_unique (db w) -> contacts_unique (db (snd (handle r w))).
Proof.
  intros H. unfold contacts_unique in *.
  destruct r as [req clk | i st now]; simpl.
  - destruct (register_patients req clk w) as (r & w1 & R & Hp & _).
    rewrite Hp.
    destruct (resolve_patient_effect _ _ _ _ _ R)
      as [(Hdb & _) | (n & a & g & c & _ & _ & _ & _ & Hnew & Hdb & _)];
      rewrite Hdb; [exact H|].
    simpl. rewrite map_app. simpl.
    apply NoDup_app; [exact H | repeat constructor; auto |].
    intros x Hx [Ex | []]. subst x.
    apply in_map_iff in Hx. destruct Hx as (p & Hpc & Hin).
    unfold getPatientByContact in Hnew.
    pose proof (find_none _ _ Hnew p Hin) as F.
    unfold has_contact in F. rewrite Hpc, String.eqb_refl in F. discriminate.
  - rewrite (proj1 (put_status_patients i st now w)). exact H.
Qed.

Lemma step_contacts_unique now t w :
  contacts_unique (db w) -> contacts_unique (db (snd (step now t w))).
Proof.
  intros H. destruct t as [req|req|req|req pt|req pt tok|req pt tok qid|a]; simpl.
  - destruct (getPatientByContact _ _); exact H.
  - destruct (insertPatient _ _ _ _ _ _) as [e|d'] eqn:E; simpl; [exact H|].
    exact (insertPatient_contacts_unique _ _ _ _ _ _ _ H E).
  - destruct (selectPatientId _ _); exact H.
  - exact H.
  - unfold addToQueue. destruct (department req); simpl; exact H.
  - rewrite broadcast_frames. destruct pt; simpl. exact H.
  - exact H.
Qed.

Lemma step_nth_contacts_unique k now ts w :
  contacts_unique (db w) -> contacts_unique (db (snd (step_nth k now ts w))).
Proof.
  revert k. induction ts as [|t ts IH]; intros k H.
  - destruct k; exact H.
  - destruct k as [|k]; simpl.
    + pose proof (step_contacts_unique now t w H) as H'.
      destruct (step now t w). exact H'.
    + specialize (IH k H). destruct (step_nth k now ts w). exact IH.
Qed.

(** X3.  The store never holds two patients with one contact.  Each
    INSERT of [addPatient] keeps the contacts pairwise distinct, so they
    stay distinct over every history of requests served one after another
    and over every interleaving of the statements of registrations. *)
Theorem contacts_stay_unique :
  (forall now n a g c d d',
      contacts_unique d ->
      insertPatient now n a g c d = inr d' ->
      contacts_unique d')
  /\
  (forall rs w, contacts_unique (db w) -> contacts_unique (db (run rs w)))
  /\
  (forall sched ts w,
      contacts_unique (db w) ->
      contacts_unique (db (snd (run_schedule sched ts w)))).
Proof.
  split; [exact insertPatient_contacts_unique | split].
  - intros rs. induction rs as [|r rs IH]; intros w H; simpl; [exact H|].
    apply IH, handle_contacts_unique, H.
  - intros sched. induction sched as [|[k now] sched IH]; intros ts w H; simpl;
      [exact H|].
    pose proof (step_nth_contacts_unique k now ts w H) as H'.
    destruct (step_nth k now ts w) as [ts' w']. apply IH. exact H'.
Qed.

Lemma contacts_stay_unique_witness :
  contacts_unique (db (run a_normal_morning initial_world)) /\
  contacts_unique
    (db (snd (run_schedule in_turn (map AwaitLookup [patient_A; patient_A])
                           initial_world))).
Proof.
  split.
  - apply (proj1 (proj2 contacts_stay_unique)). constructor.
  - apply (proj2 (proj2 contacts_stay_unique)). constructor.
Defined.

(** *** Patients and the queue rows that refer to them *)

(** What one request does to the patients: nothing, or one patient
    more, at the first visit and with the next id. *)
Lemma handle_patients_effect r w :
  (patients (db (snd (handle r w))) = patients (db w) /\
   patients_seq (db (snd (handle r w))) = patients_seq (db w))
  \/
  (exists p,
      patients (db (snd (handle r w))) = (patients (db w) ++ [p])%list /\
      patients_seq (db (snd (handle r w))) = patients_seq (db w) + 1 /\
      p_id p = patients_seq (db w) + 1 /\
      p_visit_count p = 1%Z /\ p_last_visit p = p_created_at p).
Proof.
  destruct r as [req clk | i st now]; simpl.
  - destruct (register_patients req clk w) as (r & w1 & R & Hp & Hs).
    rewrite Hp, Hs.
    destruct (resolve_patient_effect _ _ _ _ _ R)
      as [(Hdb & _) | (n & a & g & c & _ & _ & _ & _ & _ & Hdb & _)];
      rewrite Hdb.
    + left. auto.
    + right. eexists. simpl. repeat split.
  - left. apply put_status_patients.
Qed.

Lemma set_status_patient_id st now q :
  q_patient_id (set_status st now q) = q_patient_id q.
Proof.
  unfold set_status.
  destruct (is_status "In Progress" st); [reflexivity|].
  destruct (is_status "Completed" st); reflexivity.
Qed.

Lemma handle_patients_exist r w :
  patients_exist (db w) -> patients_exist (db (snd (handle r w))).
Proof.
  unfold patients_exist. intros H.
  assert (Hold : Forall (fun q => exists p,
                            In p (patients (db (snd (handle r w)))) /\
                            p_id p = q_patient_id q) (queue (db w))).
  { eapply Forall_impl; [|exact H]. intros q (p & Hin & Hid). exists p.
    split; [|exact Hid].
    destruct (handle_patients_effect r w) as [(Hp & _) | (p' & Hp & _)];
      rewrite Hp; [exact Hin | apply in_or_app; left; exact Hin]. }
  destruct r as [req clk | i st now].
  - cbn [handle] in *.
    destruct (register req clk w) as [answer w'] eqn:Hreg. cbn [snd] in *.
    destruct answer as [token position ir vc pid| |e].
    + apply register_ok_inv in Hreg.
      destruct Hreg as (dep & pt & w1 & _ & R & _ & Hq & _ & Hp & _ & _ & _ & Hpid & _).
      rewrite Hq. apply Forall_app. split; [exact Hold|].
      constructor; [|constructor]. cbn [q_patient_id]. rewrite Hp, Hpid.
      destruct (resolve_patient_effect _ _ _ _ _ R)
        as [(Hdb & Hex) | (n & a & g & c & _ & _ & _ & _ & _ & Hdb & Hr)].
      * destruct (Hex pt eq_refl) as (p & Hfind & ->). rewrite Hdb.
        exists p. split; [|reflexivity].
        unfold getPatientByContact in Hfind.
        destruct (contact req); [|discriminate].
        apply find_some in Hfind. tauto.
      * injection Hr as ->. rewrite Hdb. eexists. split.
        -- simpl. apply in_or_app. right. left. reflexivity.
        -- reflexivity.
    + exfalso. exact (register_not_StatusOk _ _ _ _ Hreg).
    + apply register_failure_inv in Hreg. destruct Hreg as (Hq & _).
      rewrite Hq. exact Hold.
  - cbn [handle] in *. rewrite put_status_unfold in *.
    unfold updateQueueStatus in *. cbn [snd db queue patients] in *.
    rewrite Forall_map. eapply Forall_impl; [|exact Hold].
    cbn beta. intros q Hq.
    destruct (q_id q =? i); [rewrite set_status_patient_id|]; exact Hq.
Qed.

Lemma handle_patient_ids_fresh r w :
  patient_ids_fresh (db w) -> patient_ids_fresh (db (snd (handle r w))).
Proof.
  unfold patient_ids_fresh. intros [Hnd Hle].
  destruct (handle_patients_effect r w)
    as [(Hp & Hs) | (p & Hp & Hs & Hid & _)]; rewrite Hp, Hs.
  - auto.
  - split.
    + rewrite map_app. simpl.
      apply NoDup_app; [exact Hnd | repeat constructor; auto |].
      intros x Hx [Ex | []]. subst x.
      apply in_map_iff in Hx. destruct Hx as (p' & Hp' & Hin).
      rewrite Forall_forall in Hle. specialize (Hle p' Hin). lia.
    + apply Forall_app. split.
      * eapply Forall_impl; [|exact Hle]. cbn beta. intros; lia.
      * repeat constructor. lia.
Qed.

(** X4.  Over every history of requests served one after another, the
    store keeps its references sound though no foreign key is enforced:
    patient ids stay pairwise distinct and every queue row refers to a
    stored patient, so the join of the queue with the patients has
    exactly one row per queue row. *)
Theorem queue_rows_keep_their_patient rs w :
  patient_ids_fresh (db w) ->
  patients_exist (db w) ->
  patient_ids_fresh (db (run rs w)) /\
  patients_exist (db (run rs w)) /\
  List.length (join_patients (db (run rs w)) (queue (db (run rs w))))
  = List.length (queue (db (run rs w))).
Proof.
  intros Hf He.
  assert (H : patient_ids_fresh (db (run rs w)) /\ patients_exist (db (run rs w))).
  { revert w Hf He. induction rs as [|r rs IH]; intros w Hf He; simpl; [auto|].
    apply IH; [apply handle_patient_ids_fresh | apply handle_patients_exist];
      assumption. }
  destruct H as [Hf' He']. split; [exact Hf'|]. split; [exact He'|].
  unfold join_patients. destruct Hf' as [Hnd _]. unfold patients_exist in He'.
  induction He' as [|q qs (p & Hin & Hid) _ IH]; simpl; [reflexivity|].
  rewrite length_app, length_map, IH. f_equal.
  clear -Hnd Hin Hid. revert Hnd Hin.
  induction (patients (db (run rs w))) as [|p' l IHl]; simpl; intros Hnd Hin;
    [contradiction|].
  inversion Hnd as [|? ? Hnotin Hnd']; subst.
  destruct Hin as [-> | Hin].
  - rewrite Hid, N.eqb_refl. simpl. f_equal.
    assert (F : filter (fun p0 => p_id p0 =? q_patient_id q) l = []).
    { clear -Hnotin Hid. induction l as [|x l IH]; simpl; [reflexivity|].
      destruct (p_id x =? q_patient_id q) eqn:E.
      - exfalso. apply Hnotin. left. apply N.eqb_eq in E. congruence.
      - apply IH. intros H. apply Hnotin. right. exact H. }
    rewrite F. reflexivity.
  - destruct (p_id p' =? q_patient_id q) eqn:E.
    + exfalso. apply Hnotin. apply N.eqb_eq in E. rewrite E, <- Hid.
      apply in_map. exact Hin.
    + apply IHl; assumption.
Qed.

Lemma queue_rows_keep_their_patient_witness :
  patient_ids_fresh (db (run a_normal_morning initial_world)) /\
  patients_exist (db (run a_normal_morning initial_world)) /\
  List.length (join_patients (db (run a_normal_morning initial_world))
                             (queue (db (run a_normal_morning initial_world))))
  = List.length (queue (db (run a_normal_morning initial_world))).
Proof.
  apply (queue_rows_keep_their_patient a_normal_morning initial_world).
  - split; constructor.
  - constructor.
Defined.

(** X5.  Over every history of requests served one after another, the
    patients table only grows at its end: no stored patient row is ever
    modified or removed by a route, and every patient is added at its
    first visit.  From a store whose patients are all at their first
    visit, every patient stays there: the visit count is 1 and the last
    visit is the creation, however often the contact registers. *)
Theorem patients_only_added rs w :
  (exists more, patients (db (run rs w)) = (patients (db w) ++ more)%list) /\
  (first_visits (db w) -> first_visits (db (run rs w))).
Proof.
  revert w. induction rs as [|r rs IH]; intros w; simpl.
  - split; [exists []; symmetry; apply List.app_nil_r | auto].
  - destruct (IH (snd (handle r w))) as [(more & Hmore) Hfirst].
    destruct (handle_patients_effect r w)
      as [(Hp & _) | (p & Hp & _ & _ & Hv & Hl)].
    + split.
      * exists more. rewrite Hmore, Hp. reflexivity.
      * intros H. apply Hfirst. unfold first_visits in *. rewrite Hp. exact H.
    + split.
      * exists (p :: more). rewrite Hmore, Hp, <- List.app_assoc. reflexivity.
      * intros H. apply Hfirst. unfold first_visits in *. rewrite Hp.
        apply Forall_app. split; [exact H|]. repeat constructor; assumption.
Qed.

Lemma patients_only_added_witness :
  first_visits
    (db (run [Register patient_A (clock_at nine);
              Register patient_A_again (clock_at (nine + 86400000))]
             initial_world)).
Proof.
  apply (proj2 (patients_only_added _ initial_world)). constructor.
Defined.

(** *** Tokens in the order of registration *)

Lemma filter_map_commute {A : Type} (p : A -> bool) (f : A -> A) (l : list A) :
  (forall x, p (f x) = p x) ->
  filter p (map f l) = map f (filter p l).
Proof.
  intros H. induction l as [|x l IH]; simpl; [reflexivity|].
  rewrite H. destruct (p x); simpl; rewrite IH; reflexivity.
Qed.

Lemma set_status_token st now q : q_token (set_status st now q) = q_token q.
Proof.
  unfold set_status.
  destruct (is_status "In Progress" st); [reflexivity|].
  destruct (is_status "Completed" st); reflexivity.
Qed.

Lemma set_status_department st now q :
  q_department (set_status st now q) = q_department q.
Proof.
  unfold set_status.
  destruct (is_status "In Progress" st); [reflexivity|].
  destruct (is_status "Completed" st); reflexivity.
Qed.

Lemma set_status_symptoms st now q :
  q_symptoms (set_status st now q) = q_symptoms q.
Proof.
  unfold set_status.
  destruct (is_status "In Progress" st); [reflexivity|].
  destruct (is_status "Completed" st); reflexivity.
Qed.

Lemma token_number_inj dep a b : token_number dep a = token_number dep b -> a = b.
Proof.
  unfold token_number. intros H.
  apply append_cancel, padStart_number_inj in H. lia.
Qed.

Lemma NoDup_map_inj {A B : Type} (f : A -> B) (l : list A) :
  (forall x y, f x = f y -> x = y) -> NoDup l -> NoDup (map f l).
Proof.
  intros Hinj. induction 1 as [|x l Hnotin _ IH]; simpl; constructor.
  - intros Hin. apply in_map_iff in Hin. destruct Hin as (y & E & Hy).
    apply Hinj in E. subst y. contradiction.
  - exact IH.
Qed.

Lemma put_status_in_scope dep day i st now w :
  filter (in_scope dep day) (queue (db (snd (put_status i st now w))))
  = map (fun r => if q_id r =? i then set_status st now r else r)
        (filter (in_scope dep day) (queue (db w))).
Proof.
  rewrite put_status_unfold. unfold updateQueueStatus. cbn [snd db queue].
  apply filter_map_commute. intros q.
  destruct (q_id q =? i); [|reflexivity].
  unfold in_scope. rewrite set_status_department, set_status_registered_at.
  reflexivity.
Qed.

Lemma handle_numbered r w :
  counts_on_insert_day r ->
  (forall dep day, numbered dep day (db w)) ->
  forall dep day, numbered dep day (db (snd (handle r w))).
Proof.
  intros Hday H dep day. specialize (H dep day) as Hdd. unfold numbered in *.
  cbv zeta in *.
  destruct r as [req clk | i st now]; cbn [handle].
  - destruct (register req clk w) as [answer w'] eqn:Hreg. cbn [snd].
    destruct answer as [token position ir vc pid| |e].
    + apply register_ok_inv in Hreg.
      destruct Hreg as (dep0 & pt & w1 & _ & R & Htok & Hq & _).
      apply resolve_patient_queue in R. destruct R as (Hq1 & _).
      rewrite Hq, filter_app. cbn [filter].
      destruct (in_scope dep day _) eqn:E; [|rewrite List.app_nil_r; exact Hdd].
      unfold in_scope in E. cbn [q_department q_registered_at] in E.
      apply andb_true_iff in E. destruct E as [E1 E2].
      apply String.eqb_eq in E1. apply N.eqb_eq in E2. subst dep0.
      rewrite date_of_CURRENT_TIMESTAMP in E2.
      rewrite length_app, map_app, Nat.add_comm. cbn [List.length Nat.add].
      rewrite seq_S, map_app, Hdd. cbn [map q_token]. f_equal. f_equal.
      rewrite Htok. unfold generateToken, token_number, template_of. cbv zeta.
      simpl in Hday. rewrite Hday, E2.
      unfold countEntries. rewrite Hq1.
      f_equal. f_equal. f_equal. lia.
    + exfalso. exact (register_not_StatusOk _ _ _ _ Hreg).
    + apply register_failure_inv in Hreg. destruct Hreg as (Hq & _).
      rewrite Hq. exact Hdd.
  - rewrite put_status_in_scope, map_map, length_map.
    erewrite map_ext; [exact Hdd|].
    intros q. cbn beta. destruct (q_id q =? i); [apply set_status_token | reflexivity].
Qed.

Lemma run_numbered rs w :
  Forall counts_on_insert_day rs ->
  (forall dep day, numbered dep day (db w)) ->
  forall dep day, numbered dep day (db (run rs w)).
Proof.
  intros Hrs. revert w. induction Hrs as [|r rs Hr _ IH]; intros w H; simpl.
  - exact H.
  - apply IH. apply handle_numbered; assumption.
Qed.

Lemma empty_queue_numbered w :
  queue (db w) = [] -> forall dep day, numbered dep day (db w).
Proof. intros H dep day. unfold numbered. rewrite H. reflexivity. Qed.

(** X6.  Over every history of requests served one after another from
    an empty queue, no registration having midnight between its count
    and its insertion, the entries of each department and day carry the
    numbers 1, 2, 3, ... in the order they were registered, whatever was
    done to their status; so no two of them share a token. *)
Theorem tokens_number_the_registrations rs w0 dep day :
  queue (db w0) = [] ->
  Forall counts_on_insert_day rs ->
  let rows := filter (in_scope dep day) (queue (db (run rs w0))) in
  map q_token rows = map (token_number dep) (seq 1 (List.length rows)) /\
  NoDup (map q_token rows).
Proof.
  intros Hempty Hrs. cbv zeta.
  pose proof (run_numbered rs w0 Hrs (empty_queue_numbered w0 Hempty) dep day) as H.
  unfold numbered in H. cbv zeta in H.
  split; [exact H|]. rewrite H.
  apply NoDup_map_inj; [apply token_number_inj | apply seq_NoDup].
Qed.

Lemma tokens_number_the_registrations_witness :
  let rows := filter (in_scope "GEN" 20454)
                     (queue (db (run a_normal_morning initial_world))) in
  map q_token rows = map (token_number "GEN") (seq 1 (List.length rows)) /\
  NoDup (map q_token rows).
Proof.
  apply (tokens_number_the_registrations a_normal_morning initial_world "GEN" 20454).
  - reflexivity.
  - repeat constructor.
Defined.

(** *** The order of tokens as texts *)

Lemma compare_lt_trans (a b c : string) :
  String.compare a b = Lt -> String.compare b c = Lt -> String.compare a c = Lt.
Proof.
  revert b c. induction a as [|x a IH]; intros [|y b] [|z c]; simpl;
    try discriminate; auto.
  unfold Ascii.compare.
  destruct (N.compare_spec (N_of_ascii x) (N_of_ascii y)) as [E1|E1|E1];
    destruct (N.compare_spec (N_of_ascii y) (N_of_ascii z)) as [E2|E2|E2];
    try discriminate; intros H1 H2.
  - rewrite E1, E2, N.compare_refl. eapply IH; eassumption.
  - rewrite E1. apply N.compare_lt_iff in E2. rewrite E2. reflexivity.
  - rewrite <- E2. apply N.compare_lt_iff in E1. rewrite E1. reflexivity.
  - assert (E : N_of_ascii x < N_of_ascii z) by lia.
    apply N.compare_lt_iff in E. rewrite E. reflexivity.
Qed.

Lemma ltb_trans (a b c : string) :
  String.ltb a b = true -> String.ltb b c = true -> String.ltb a c = true.
Proof.
  unfold String.ltb. intros H1 H2.
  destruct (String.compare a b) eqn:E1; try discriminate.
  destruct (String.compare b c) eqn:E2; try discriminate.
  rewrite (compare_lt_trans _ _ _ E1 E2). reflexivity.
Qed.

Lemma padded_next (k : nat) :
  (k < 999)%nat ->
  String.ltb (padStart 3 "0" (String_of_number (N.of_nat k)))
             (padStart 3 "0" (String_of_number (N.of_nat (S k)))) = true.
Proof.
  intros H.
  assert (A : forallb (fun k =>
                String.ltb (padStart 3 "0" (String_of_number (N.of_nat k)))
                           (padStart 3 "0" (String_of_number (N.of_nat (S k)))))
                      (seq 0 999) = true)
    by (vm_compute; reflexivity).
  rewrite forallb_forall in A. apply A. apply in_seq. lia.
Qed.

Lemma padded_lt (a b : nat) :
  (a < b)%nat -> (b < 1000)%nat ->
  String.ltb (padStart 3 "0" (String_of_number (N.of_nat a)))
             (padStart 3 "0" (String_of_number (N.of_nat b))) = true.
Proof.
  induction b as [|b IH]; intros Hab Hb; [lia|].
  destruct (Nat.eq_dec a b) as [-> | Hne].
  - apply padded_next. lia.
  - eapply ltb_trans; [apply IH; lia | apply padded_next; lia].
Qed.

(** X7.  For numbers below 1000 the tokens of a department compare, as
    texts, the way their numbers compare: the padding to three digits
    makes the text order of [getQueuePosition] the numeric order. *)
Theorem padded_tokens_compare_as_numbers dep a b :
  a < 1000 -> b < 1000 ->
  String.ltb (dep ++ padStart 3 "0" (String_of_number a))
             (dep ++ padStart 3 "0" (String_of_number b))
  = (a <? b).
Proof.
  intros Ha Hb. rewrite ltb_append.
  rewrite <- (N2Nat.id a), <- (N2Nat.id b).
  destruct (N.ltb_spec (N.of_nat (N.to_nat a)) (N.of_nat (N.to_nat b))) as [L|L].
  - apply padded_lt; lia.
  - destruct (N.eq_dec a b) as [-> | Hne]; [apply ltb_irrefl|].
    assert (G : String.ltb (padStart 3 "0" (String_of_number (N.of_nat (N.to_nat b))))
                           (padStart 3 "0" (String_of_number (N.of_nat (N.to_nat a))))
                = true) by (apply padded_lt; lia).
    unfold String.ltb in *. rewrite String.compare_antisym.
    destruct (String.compare _ _); try discriminate. reflexivity.
Qed.

Lemma padded_tokens_compare_as_numbers_witness :
  String.ltb ("GEN" ++ padStart 3 "0" (String_of_number 99))
             ("GEN" ++ padStart 3 "0" (String_of_number 100))
  = (99 <? 100).
Proof.
  apply (padded_tokens_compare_as_numbers "GEN" 99 100); reflexivity.
Defined.

(** *** The position, below a thousand registrations *)

Lemma register_position_before req clk w token position ir vc pid w' :
  register req clk w = (RegisterOk token position ir vc pid, w') ->
  exists dep,
    department req = Some dep /\
    token = dep ++ padStart 3 "0"
              (String_of_number
                 (countEntries (Some dep) (date_of (at_token clk)) (db w) + 1)) /\
    position = N.of_nat (List.length
                           (filter (ahead_of dep token (date_of (at_position clk)))
                                   (queue (db w)))).
Proof.
  intros H.
  destruct (register_token_format _ _ _ _ _ _ _ _ _ H) as (dep & Hdep & Htok).
  apply register_ok_inv in H.
  destruct H as (dep' & pt & w1 & Hdep' & _ & _ & Hq & _ & _ & Hpos & _).
  assert (dep' = dep) by congruence. subst dep'.
  exists dep. split; [exact Hdep|]. split; [exact Htok|].
  rewrite Hpos. unfold getQueuePosition. rewrite Hq.
  rewrite filter_length_snoc; [reflexivity|].
  unfold ahead_of. simpl. rewrite ltb_irrefl, andb_false_r. reflexivity.
Qed.

(** X8.  After a history served one after another from an empty queue,
    no registration straddling midnight, a registration that finds fewer
    than 999 entries of its department and day is told as position the
    number of those entries that are still Waiting: every entry
    registered before it that day in the department counts, and only
    while it waits. *)
Theorem position_counts_earlier_waiting
    rs w0 req clk token position ir vc pid w' dep day :
  queue (db w0) = [] ->
  Forall counts_on_insert_day rs ->
  register req clk (run rs w0) = (RegisterOk token position ir vc pid, w') ->
  department req = Some dep ->
  date_of (at_token clk) = day ->
  date_of (at_position clk) = day ->
  countEntries (Some dep) day (db (run rs w0)) < 999 ->
  position =
    N.of_nat (List.length (filter (waiting_in dep day) (queue (db (run rs w0))))).
Proof.
  intros Hempty Hrs Hreg Hdep Htok Hpos Hcount.
  destruct (register_position_before _ _ _ _ _ _ _ _ _ Hreg)
    as (dep' & Hdep' & Htoken & Hposition).
  assert (dep' = dep) by congruence. subst dep'.
  rewrite Htok in Htoken. rewrite Hpos in Hposition. rewrite Hposition.
  f_equal. f_equal. apply filter_ext_in. intros r Hin.
  pose proof (run_numbered rs w0 Hrs (empty_queue_numbered w0 Hempty) dep day) as Hn.
  unfold numbered in Hn. cbv zeta in Hn.
  unfold ahead_of, waiting_in, in_scope.
  destruct (String.eqb (q_department r) dep) eqn:E1; [|reflexivity].
  destruct (date_of (q_registered_at r) =? day) eqn:E2;
    [|rewrite !andb_false_r; reflexivity].
  assert (Hs : In r (filter (in_scope dep day) (queue (db (run rs w0))))).
  { apply filter_In. split; [exact Hin|]. unfold in_scope. rewrite E1, E2. reflexivity. }
  apply (in_map q_token) in Hs. rewrite Hn in Hs.
  apply in_map_iff in Hs. destruct Hs as (k & Hk & Hks). apply in_seq in Hks.
  assert (L : String.ltb (q_token r) token = true).
  { rewrite <- Hk, Htoken. unfold token_number. rewrite ltb_append.
    unfold countEntries in *.
    replace (N.of_nat (List.length (filter (in_scope dep day)
                                           (queue (db (run rs w0))))) + 1)
      with (N.of_nat (S (List.length (filter (in_scope dep day)
                                             (queue (db (run rs w0)))))))
      by lia.
    apply padded_lt; lia. }
  rewrite L. destruct (is_status "Waiting" (q_status r)); reflexivity.
Qed.

Lemma position_counts_earlier_waiting_witness :
  0 = N.of_nat (List.length
                  (filter (waiting_in "GEN" 20454)
                          (queue (db (run [Register patient_A (clock_at nine);
                                           PutStatus 1 (Some "In Progress") (nine + 500)]
                                          initial_world))))).
Proof.
  apply (position_counts_earlier_waiting
           [Register patient_A (clock_at nine);
            PutStatus 1 (Some "In Progress") (nine + 500)]
           initial_world patient_B (clock_at (nine + 1000))
           "GEN002" 0 false (JNum 1) 2
           (snd (register patient_B (clock_at (nine + 1000))
                          (run [Register patient_A (clock_at nine);
                                PutStatus 1 (Some "In Progress") (nine + 500)]
                               initial_world)))
           "GEN" 20454);
    try reflexivity.
  repeat constructor.
Defined.

(** *** What a queue entry keeps *)

(** X9.  A queue entry is never removed and, apart from its status and
    its two timestamps, never changed: whatever requests are served
    after it exists, the id still names an entry with the same token,
    department, patient, symptoms and registration time. *)
Theorem entry_keeps_its_registration later w i e :
  find_entry i w = Some e ->
  exists e',
    find_entry i (run later w) = Some e' /\
    q_id e' = q_id e /\ q_token e' = q_token e /\
    q_department e' = q_department e /\ q_patient_id e' = q_patient_id e /\
    q_symptoms e' = q_symptoms e /\ q_registered_at e' = q_registered_at e.
Proof.
  revert w e. induction later as [|r later IH]; intros w e H.
  - exists e. auto 10.
  - simpl.
    destruct (handle_entry_some r w i e H) as [H' | (st & now & _ & H')];
      destruct (IH _ _ H') as (e' & Hf & Hi & Ht & Hd & Hp & Hs & Hr);
      exists e'; split; try exact Hf.
    + auto 10.
    + rewrite Hi, Ht, Hd, Hp, Hs, Hr.
      rewrite set_status_id, set_status_token, set_status_department,
        set_status_patient_id, set_status_symptoms, set_status_registered_at.
      auto 10.
Qed.

Lemma entry_keeps_its_registration_witness :
  exists e',
    find_entry 1 (run [PutStatus 1 (Some "In Progress") (nine + 2000);
                       PutStatus 1 None (nine + 3000)] after_B) = Some e' /\
    q_id e' = 1 /\ q_token e' = "GEN001" /\
    q_department e' = "GEN" /\ q_patient_id e' = 1 /\
    q_symptoms e' = Some "fever" /\ q_registered_at e' = 1767258000000.
Proof.
  apply (entry_keeps_its_registration
           [PutStatus 1 (Some "In Progress") (nine + 2000);
            PutStatus 1 None (nine + 3000)]
           after_B 1
           (mkQueueRow 1 1 "GEN001" "GEN" (Some "fever") (Some "Waiting")
                       1767258000000 None None)).
  reflexivity.
Defined.

(** *** The patient of a registration *)

(** X10.  A registration that succeeds answers with the id of the
    patient stored under the contact of the request, and that patient is
    found by the contact afterwards.  Either the contact was stored
    before: the answer says returning and the stored row is the one found
    before, unchanged; or it was not: the answer says not returning with
    visit count 1, the id is the next of the sequence and the stored row
    carries the name, age and gender of the request, visit count 1. *)
Theorem register_resolves_patient req clk w token position ir vc pid w' :
  register req clk w = (RegisterOk token position ir vc pid, w') ->
  exists c p,
    contact req = Some c /\
    getPatientByContact (Some c) (db w') = Some p /\
    p_id p = pid /\ p_contact p = c /\
    ((getPatientByContact (Some c) (db w) = Some p /\ ir = true /\
      patients (db w') = patients (db w))
     \/
     (getPatientByContact (Some c) (db w) = None /\ ir = false /\ vc = JNum 1 /\
      pid = patients_seq (db w) + 1 /\
      name req = Some (p_name p) /\ age req = Some (p_age p) /\
      gender req = Some (p_gender p) /\
      p_visit_count p = 1%Z /\
      p_created_at p = CURRENT_TIMESTAMP (at_patient clk) /\
      patients (db w') = (patients (db w) ++ [p])%list)).
Proof.
  intros H. apply register_ok_inv in H.
  destruct H as (dep & pt & w1 & _ & R & _ & _ & _ & Hp & _ & Hir & Hvc & Hpid & _).
  destruct (resolve_patient_effect _ _ _ _ _ R)
    as [(Hdb & Hex) | (n & a & g & c & Hn & Ha & Hg & Hc & Hnew & Hdb & Hr)].
  - destruct (Hex pt eq_refl) as (p & Hfind & ->).
    destruct (contact req) as [c|] eqn:Hc; [|discriminate].
    exists c, p.
    assert (Hcp : p_contact p = c).
    { unfold getPatientByContact in Hfind. apply find_some in Hfind.
      destruct Hfind as [_ F]. apply String.eqb_eq in F. exact F. }
    assert (Hsame : patients (db w') = patients (db w)) by (rewrite Hp, Hdb; reflexivity).
    split; [reflexivity|]. split; [|split; [|split]].
    + unfold getPatientByContact in *. rewrite Hsame. exact Hfind.
    + rewrite Hpid. reflexivity.
    + exact Hcp.
    + left. rewrite Hir. auto.
  - injection Hr as ->.
    exists c, (mkPatient (patients_seq (db w) + 1) n a g c
                         (CURRENT_TIMESTAMP (at_patient clk))
                         (CURRENT_TIMESTAMP (at_patient clk)) 1).
    assert (Hgrow : patients (db w') =
                    (patients (db w) ++
                     [mkPatient (patients_seq (db w) + 1) n a g c
                                (CURRENT_TIMESTAMP (at_patient clk))
                                (CURRENT_TIMESTAMP (at_patient clk)) 1])%list)
      by (rewrite Hp, Hdb; reflexivity).
    split; [exact Hc|]. split; [|split; [|split]].
    + unfold getPatientByContact in *. rewrite Hgrow, find_snoc, Hnew.
      unfold has_contact. simpl. rewrite String.eqb_refl. reflexivity.
    + rewrite Hpid. reflexivity.
    + reflexivity.
    + right. rewrite Hir, Hvc, Hpid. simpl. auto 12.
Qed.

Lemma register_resolves_patient_witness :
  exists c p,
    contact patient_B = Some c /\
    getPatientByContact (Some c) (db after_B) = Some p /\
    p_id p = 2 /\ p_contact p = c /\
    ((getPatientByContact (Some c) (db after_A) = Some p /\ false = true /\
      patients (db after_B) = patients (db after_A))
     \/
     (getPatientByContact (Some c) (db after_A) = None /\ false = false /\
      JNum 1 = JNum 1 /\
      2 = patients_seq (db after_A) + 1 /\
      name patient_B = Some (p_name p) /\ age patient_B = Some (p_age p) /\
      gender patient_B = Some (p_gender p) /\
      p_visit_count p = 1%Z /\
      p_created_at p = CURRENT_TIMESTAMP (at_patient (clock_at (nine + 1000))) /\
      patients (db after_B) = (patients (db after_A) ++ [p])%list)).
Proof.
  apply (register_resolves_patient patient_B (clock_at (nine + 1000)) after_A
           "GEN002" 1 false (JNum 1) 2 after_B).
  reflexivity.
Defined.

(** *** What a registration puts on the wire *)

(** X11.  A registration broadcasts exactly when it succeeds.  On
    success every client of the set whose socket is open is handed one
    NEW_REGISTRATION frame, in the order of the set, carrying the body of
    the request, status Waiting, and the token, position, patient id,
    returning flag and visit count of the answer, with as queue id the id
    of the row just inserted, which carries that token; on failure the
    wire is as before.  The set of clients is never changed. *)
Theorem register_broadcasts_its_answer req clk w answer w' :
  register req clk w = (answer, w') ->
  clients w' = clients w /\
  match answer with
  | RegisterOk token position ir vc pid =>
      exists lastVisit row,
        wire w' =
          (wire w ++
           map (fun c => (c, NEW_REGISTRATION
                               (mkRegistrationEvent req ir lastVisit vc token
                                  "Waiting" pid (q_id row) position)))
               (open_among w (clients w)))%list /\
        queue (db w') = (queue (db w) ++ [row])%list /\
        q_token row = token /\ q_patient_id row = pid /\
        q_status row = Some "Waiting" /\ department req = Some (q_department row)
  | _ => wire w' = wire w
  end.
Proof.
  intros H. destruct answer as [token position ir vc pid| |e].
  - apply register_ok_inv in H.
    destruct H as (dep & pt & w1 & Hdep & _ & _ & Hq & _ & _ & _ & Hir & Hvc & Hpid
                   & Hc & _ & Hw).
    split; [exact Hc|].
    eexists (lastVisit pt), _. split; [|split; [exact Hq|]].
    + rewrite Hw. unfold frames, registration_message. cbn [q_id].
      rewrite Hir, Hvc, Hpid. reflexivity.
    + cbn. auto.
  - exfalso. exact (register_not_StatusOk _ _ _ _ H).
  - apply register_failure_inv in H. tauto.
Qed.

Lemma register_broadcasts_its_answer_witness :
  clients after_B = clients after_A /\
  exists lastVisit row,
    wire after_B =
      (wire after_A ++
       map (fun c => (c, NEW_REGISTRATION
                           (mkRegistrationEvent patient_B false lastVisit (JNum 1)
                              "GEN002" "Waiting" 2 (q_id row) 1)))
           (open_among after_A (clients after_A)))%list /\
    queue (db after_B) = (queue (db after_A) ++ [row])%list /\
    q_token row = "GEN002" /\ q_patient_id row = 2 /\
    q_status row = Some "Waiting" /\ department patient_B = Some (q_department row).
Proof.
  apply (register_broadcasts_its_answer patient_B (clock_at (nine + 1000)) after_A
           (RegisterOk "GEN002" 1 false (JNum 1) 2) after_B).
  reflexivity.
Defined.

(** *** Ordered results *)

Lemma insert_by_perm {A : Type} (before : A -> A -> bool) (x : A) (l : list A) :
  Permutation (insert_by before x l) (x :: l).
Proof.
  induction l as [|y l IH]; simpl; [reflexivity|].
  destruct (before x y); [reflexivity|].
  rewrite IH. apply perm_swap.
Qed.

Lemma order_by_perm {A : Type} (before : A -> A -> bool) (l : list A) :
  Permutation (order_by before l) l.
Proof.
  induction l as [|x l IH]; simpl; [reflexivity|].
  rewrite insert_by_perm. constructor. exact IH.
Qed.

Lemma order_by_In {A : Type} (before : A -> A -> bool) (l : list A) (x : A) :
  In x (order_by before l) <-> In x l.
Proof.
  split; apply Permutation_in; [|symmetry]; apply order_by_perm.
Qed.

Lemma insert_by_sorted {A : Type} (before : A -> A -> bool) (x : A) (l : list A) :
  (forall a b, before a b = false -> before b a = true) ->
  Sorted (fun a b => before a b = true) l ->
  Sorted (fun a b => before a b = true) (insert_by before x l).
Proof.
  intros Htot. induction 1 as [|y l Hs IH Hhd]; simpl.
  - repeat constructor.
  - destruct (before x y) eqn:E.
    + constructor; [constructor; assumption | constructor; exact E].
    + constructor; [exact IH|].
      destruct l as [|z l]; simpl.
      * constructor. apply Htot, E.
      * destruct (before x z); constructor.
        -- apply Htot, E.
        -- inversion Hhd; assumption.
Qed.

Lemma order_by_sorted {A : Type} (before : A -> A -> bool) (l : list A) :
  (forall a b, before a b = false -> before b a = true) ->
  Sorted (fun a b => before a b = true) (order_by before l).
Proof.
  intros Htot. induction l as [|x l IH]; simpl.
  - constructor.
  - apply insert_by_sorted; assumption.
Qed.

Lemma Sorted_map {A B : Type} (R : A -> A -> Prop) (S : B -> B -> Prop)
    (f : A -> B) (l : list A) :
  (forall a b, R a b -> S (f a) (f b)) ->
  Sorted R l -> Sorted S (map f l).
Proof.
  intros H. induction 1 as [|x l Hs IH Hhd]; simpl; constructor.
  - exact IH.
  - destruct Hhd; simpl; constructor. auto.
Qed.

Lemma Sorted_firstn {A : Type} (R : A -> A -> Prop) (n : nat) (l : list A) :
  Sorted R l -> Sorted R (firstn n l).
Proof.
  intros H. revert n. induction H as [|x l Hs IH Hhd]; intros [|n]; simpl;
    try constructor.
  - apply IH.
  - destruct Hhd; destruct n; simpl; constructor. assumption.
Qed.

Lemma registered_asc_total a b :
  registered_asc a b = false -> registered_asc b a = true.
Proof. unfold registered_asc. rewrite N.leb_gt, N.leb_le. lia. Qed.

Lemma join_patients_In d qs q p :
  In (q, p) (join_patients d qs) <->
  In q qs /\ In p (patients d) /\ p_id p = q_patient_id q.
Proof.
  unfold join_patients. rewrite in_flat_map. split.
  - intros (q' & Hq & Hin). apply in_map_iff in Hin.
    destruct Hin as (p' & E & Hp). injection E as -> ->.
    apply filter_In in Hp. rewrite N.eqb_eq in Hp. tauto.
  - intros (Hq & Hp & Hid). exists q. split; [exact Hq|].
    apply in_map. apply filter_In. rewrite N.eqb_eq. auto.
Qed.

Lemma filter_by_id_single (l : list patient) (p : patient) :
  NoDup (map p_id l) -> In p l ->
  filter (fun x => p_id x =? p_id p) l = [p].
Proof.
  induction l as [|x l IH]; simpl; intros Hnd Hin; [contradiction|].
  inversion Hnd as [|? ? Hnotin Hnd']; subst.
  destruct Hin as [-> | Hin].
  - rewrite N.eqb_refl. f_equal.
    clear -Hnotin. induction l as [|y l IH]; simpl; [reflexivity|].
    destruct (p_id y =? p_id p) eqn:E.
    + exfalso. apply Hnotin. left. apply N.eqb_eq in E. exact E.
    + apply IH. intros H. apply Hnotin. right. exact H.
  - destruct (p_id x =? p_id p) eqn:E.
    + exfalso. apply Hnotin. apply N.eqb_eq in E. rewrite E. apply in_map. exact Hin.
    + apply IH; assumption.
Qed.

Lemma join_patients_fst d qs :
  NoDup (map p_id (patients d)) ->
  Forall (fun q => exists p, In p (patients d) /\ p_id p = q_patient_id q) qs ->
  map fst (join_patients d qs) = qs.
Proof.
  intros Hnd H. unfold join_patients.
  induction H as [|q qs (p & Hin & Hid) _ IH]; simpl; [reflexivity|].
  rewrite map_app, IH, <- Hid, (filter_by_id_single _ _ Hnd Hin). reflexivity.
Qed.

(** X12.  [getTodayQueue] lists, in the order of registration time, the
    queue rows registered on the day of the call, each with the columns
    of the patient it refers to, and nothing else.  When patient ids are
    distinct and every queue row has its patient, as the routes keep it,
    every entry of the day is listed exactly once. *)
Theorem getTodayQueue_lists_the_day now d :
  Sorted (fun a b => v_registered_at a <= v_registered_at b) (getTodayQueue now d) /\
  (forall v,
      In v (getTodayQueue now d) <->
      exists q p,
        In q (queue d) /\ date_of (q_registered_at q) = date_of now /\
        In p (patients d) /\ p_id p = q_patient_id q /\
        v = view_of (q, p)) /\
  (patient_ids_fresh d -> patients_exist d ->
   Permutation (map v_queue_id (getTodayQueue now d))
               (map q_id (filter (registered_today (date_of now)) (queue d)))).
Proof.
  unfold getTodayQueue. cbv zeta. split; [|split].
  - eapply Sorted_map; [|apply order_by_sorted, registered_asc_total].
    intros [q1 p1] [q2 p2]. unfold registered_asc. simpl. apply N.leb_le.
  - intros v. rewrite in_map_iff. split.
    + intros ([q p] & <- & Hin). apply order_by_In, join_patients_In in Hin.
      destruct Hin as (Hq & Hp & Hid). apply filter_In in Hq.
      unfold registered_today in Hq. rewrite N.eqb_eq in Hq.
      exists q, p. tauto.
    + intros (q & p & Hq & Hday & Hp & Hid & ->). exists (q, p).
      split; [reflexivity|]. apply order_by_In, join_patients_In.
      split; [|auto]. apply filter_In. unfold registered_today.
      rewrite N.eqb_eq. auto.
  - intros [Hnd _] Hex.
    rewrite map_map.
    assert (E : forall l : list (queue_row * patient),
               map (fun x => v_queue_id (view_of x)) l = map q_id (map fst l)).
    { intros l. rewrite map_map. apply map_ext. intros [q p]. reflexivity. }
    rewrite E.
    rewrite (Permutation_map _ (order_by_perm _ _)).
    rewrite join_patients_fst; [reflexivity | exact Hnd |].
    unfold patients_exist in Hex. rewrite Forall_forall in *.
    intros q Hq. apply filter_In in Hq. apply Hex. tauto.
Qed.

Lemma getTodayQueue_lists_the_day_witness :
  Permutation (map v_queue_id (getTodayQueue (nine + 5000) (db after_done)))
              (map q_id (filter (registered_today (date_of (nine + 5000)))
                                (queue (db after_done)))).
Proof.
  apply (proj2 (proj2 (getTodayQueue_lists_the_day (nine + 5000) (db after_done)))).
  - split; [repeat constructor; simpl; intuition discriminate|].
    repeat constructor; apply N.leb_le; reflexivity.
  - repeat constructor; simpl.
    + eexists. split; [left; reflexivity | reflexivity].
    + eexists. split; [right; left; reflexivity | reflexivity].
Defined.




(** X14.  [getQueueByDepartment] lists, in the order of registration
    time, exactly the rows of [getTodayQueue] of that department, without
    their call and completion times. *)
Theorem getQueueByDepartment_restricts_today dep now d :
  Sorted (fun a b => dv_registered_at a <= dv_registered_at b)
         (getQueueByDepartment dep now d) /\
  forall r,
    In r (getQueueByDepartment dep now d) <->
    exists v,
      In v (getTodayQueue now d) /\ v_department v = dep /\ r = without_times v.
Proof.
  unfold getQueueByDepartment, getTodayQueue. cbv zeta. split.
  - eapply Sorted_map; [|apply order_by_sorted, registered_asc_total].
    intros [q1 p1] [q2 p2]. unfold registered_asc. simpl. apply N.leb_le.
  - intros r. rewrite in_map_iff. split.
    + intros ([q p] & <- & Hin). apply order_by_In, join_patients_In in Hin.
      destruct Hin as (Hq & Hp & Hid). apply filter_In in Hq.
      destruct Hq as [Hq Hs]. unfold in_scope in Hs.
      apply andb_true_iff in Hs. destruct Hs as [Hd Hday].
      apply String.eqb_eq in Hd.
      exists (view_of (q, p)). split; [|split; [exact Hd | reflexivity]].
      apply in_map. apply order_by_In, join_patients_In.
      split; [|auto]. apply filter_In. auto.
    + intros (v & Hv & Hd & ->). apply in_map_iff in Hv.
      destruct Hv as ([q p] & <- & Hin). apply order_by_In, join_patients_In in Hin.
      destruct Hin as (Hq & Hp & Hid). apply filter_In in Hq.
      destruct Hq as [Hq Hday]. simpl in Hd.
      exists (q, p). split; [reflexivity|].
      apply order_by_In, join_patients_In. split; [|auto].
      apply filter_In. split; [exact Hq|]. unfold in_scope.
      rewrite Hd, String.eqb_refl. exact Hday.
Qed.

(** *** The history of a patient *)

Lemma insert_by_sorted_in {A : Type} (before : A -> A -> bool)
    (R : A -> A -> Prop) (x : A) (l : list A) :
  (forall y, In y l -> before x y = true -> R x y) ->
  (forall y, In y l -> before x y = false -> R y x) ->
  Sorted R l -> Sorted R (insert_by before x l).
Proof.
  intros Ht Hf Hs. induction Hs as [|y l Hs IH Hhd]; simpl.
  - repeat constructor.
  - destruct (before x y) eqn:E.
    + constructor; [constructor; assumption|].
      constructor. apply Ht; [left; reflexivity | exact E].
    + assert (Ryx : R y x) by (apply Hf; [left; reflexivity | exact E]).
      constructor.
      * apply IH; intros z Hz; [apply Ht | apply Hf]; right; exact Hz.
      * destruct l as [|z l]; simpl; [constructor; exact Ryx|].
        destruct (before x z); constructor; [exact Ryx|].
        inversion Hhd; assumption.
Qed.

Lemma later_first_trans a b c :
  later_first a b -> later_first b c -> later_first a c.
Proof. unfold later_first. lia. Qed.

Lemma ids_increasing_filter (f : queue_row -> bool) (qs : list queue_row) :
  ids_increasing qs -> ids_increasing (filter f qs).
Proof.
  unfold ids_increasing. induction 1 as [|q qs Hs IH Hall]; simpl.
  - constructor.
  - destruct (f q); [|exact IH]. constructor; [exact IH|].
    rewrite Forall_forall in *. intros x Hx. apply filter_In in Hx.
    apply Hall. tauto.
Qed.

(** The rows of a patient, in the order of [ORDER BY registered_at
    DESC]. *)
Lemma order_desc_sorted (qs : list queue_row) :
  ids_increasing qs ->
  StronglySorted later_first (order_by registered_desc qs).
Proof.
  intros H. apply Sorted_StronglySorted.
  { intros a b c. apply later_first_trans. }
  unfold ids_increasing in H.
  induction H as [|q qs Hs IH Hall]; simpl; [constructor|].
  rewrite Forall_forall in Hall.
  apply insert_by_sorted_in; [| |exact IH].
  - intros y Hy E. unfold registered_desc in E. apply N.ltb_lt in E.
    left. exact E.
  - intros y Hy E. unfold registered_desc in E. apply N.ltb_ge in E.
    apply order_by_In in Hy. specialize (Hall y Hy). unfold later_first. lia.
Qed.

Lemma StronglySorted_app_inv {A : Type} (R : A -> A -> Prop) (l1 l2 : list A) :
  StronglySorted R (l1 ++ l2) ->
  forall a b, In a l1 -> In b l2 -> R a b.
Proof.
  induction l1 as [|x l1 IH]; simpl; intros H a b Ha Hb; [contradiction|].
  apply StronglySorted_inv in H. destruct H as [Hs Hall].
  destruct Ha as [-> | Ha].
  - rewrite Forall_forall in Hall. apply Hall. apply in_or_app. right. exact Hb.
  - apply (IH Hs); assumption.
Qed.

Lemma StronglySorted_snoc {A : Type} (R : A -> A -> Prop) (l : list A) (x : A) :
  StronglySorted R l -> Forall (fun y => R y x) l -> StronglySorted R (l ++ [x]).
Proof.
  induction 1 as [|y l Hs IH Hall]; simpl; intros Hx.
  - repeat constructor.
  - inversion Hx as [|? ? Hyx Hx']; subst. constructor; [apply IH, Hx'|].
    apply Forall_app. split; [exact Hall | repeat constructor; exact Hyx].
Qed.

(** The routes keep the ids growing along the queue. *)
Lemma handle_ids_increasing r w :
  ids_increasing (queue (db w)) ->
  Forall (fun q => q_id q <= queue_seq (db w)) (queue (db w)) ->
  ids_increasing (queue (db (snd (handle r w)))) /\
  Forall (fun q => q_id q <= queue_seq (db (snd (handle r w))))
         (queue (db (snd (handle r w)))).
Proof.
  intros Hinc Hle. unfold ids_increasing in *.
  destruct r as [req clk | j st now]; simpl.
  - destruct (register_queue_effect req clk w)
      as [(Hq & Hs) | (pid & token & dep & Hq & Hs)]; rewrite Hq, Hs.
    + auto.
    + split.
      * apply StronglySorted_snoc; [exact Hinc|].
        eapply Forall_impl; [|exact Hle]. cbn. intros; lia.
      * apply Forall_app. split.
        -- eapply Forall_impl; [|exact Hle]. cbn. intros; lia.
        -- repeat constructor. cbn. lia.
  - rewrite put_status_unfold. unfold updateQueueStatus. cbn [snd db queue queue_seq].
    assert (Hid : forall q, q_id (if q_id q =? j then set_status st now q else q) = q_id q).
    { intros q. destruct (q_id q =? j); [apply set_status_id | reflexivity]. }
    split.
    + clear Hle. induction Hinc as [|q qs Hs IH Hall]; simpl; constructor.
      * exact IH.
      * rewrite Forall_map. eapply Forall_impl; [|exact Hall].
        cbn beta. intros x Hx. rewrite !Hid. exact Hx.
    + rewrite Forall_map. eapply Forall_impl; [|exact Hle].
      cbn beta. intros q Hq. rewrite Hid. exact Hq.
Qed.

Lemma run_ids_increasing rs w :
  ids_increasing (queue (db w)) ->
  Forall (fun q => q_id q <= queue_seq (db w)) (queue (db w)) ->
  ids_increasing (queue (db (run rs w))).
Proof.
  revert w. induction rs as [|r rs IH]; intros w Hinc Hle; simpl; [exact Hinc|].
  destruct (handle_ids_increasing r w Hinc Hle) as [H1 H2].
  apply IH; assumption.
Qed.

Lemma In_firstn {A : Type} (n : nat) (l : list A) (x : A) :
  In x (firstn n l) -> In x l.
Proof.
  intros H. rewrite <- (firstn_skipn n l). apply in_or_app. left. exact H.
Qed.

(** X15.  [getPatientHistory] returns the latest entries of the patient,
    ten at most.  Over every history of requests served from an empty
    queue the ids grow along the table; and on such a store the entries
    of the patient split into those returned and those left out, the
    returned ones being ten when the patient has ten entries or more and
    all of them otherwise; they come latest registration first, of one
    second the one inserted last first, and every entry left out was
    registered no later than every entry returned.  For an id with no
    entry, a patient that does not exist included, the result is the
    empty list. *)
Theorem getPatientHistory_latest_ten :
  (forall rs w0, queue (db w0) = [] -> ids_increasing (queue (db (run rs w0))))
  /\
  (forall patientId d,
      ids_increasing (queue d) ->
      exists kept dropped mine,
        getPatientHistory patientId d = map history_view_of kept /\
        Permutation (kept ++ dropped) mine /\
        (forall q, In q mine <-> In q (queue d) /\ q_patient_id q = patientId) /\
        NoDup (map q_id mine) /\
        List.length kept = Nat.min 10 (List.length mine) /\
        (List.length mine <= 10 -> dropped = [])%nat /\
        StronglySorted later_first (kept ++ dropped) /\
        (forall k x, In k kept -> In x dropped ->
                     q_registered_at x <= q_registered_at k)).
Proof.
  split.
  - intros rs w0 Hempty. apply run_ids_increasing; rewrite Hempty; constructor.
  - intros patientId d Hinc.
    set (mine := filter (fun q => q_patient_id q =? patientId) (queue d)).
    set (sorted := order_by registered_desc mine).
    assert (Hss : StronglySorted later_first sorted).
    { apply order_desc_sorted, ids_increasing_filter, Hinc. }
    assert (Hperm : Permutation sorted mine) by apply order_by_perm.
    exists (firstn 10 sorted), (skipn 10 sorted), mine.
    split; [reflexivity|]. rewrite firstn_skipn.
    split; [exact Hperm|]. split; [|split; [|split; [|split; [|split]]]].
    + intros q. unfold mine. rewrite filter_In, N.eqb_eq. reflexivity.
    + assert (Hm : ids_increasing mine) by (apply ids_increasing_filter, Hinc).
      clear -Hm. unfold ids_increasing in Hm.
      induction Hm as [|q qs Hs IH Hall]; simpl; constructor; [|exact IH].
      intros Hin. apply in_map_iff in Hin. destruct Hin as (x & Ex & Hx).
      rewrite Forall_forall in Hall. specialize (Hall x Hx). lia.
    + rewrite length_firstn, (Permutation_length Hperm). reflexivity.
    + intros Hlen. apply length_zero_iff_nil.
      rewrite length_skipn, (Permutation_length Hperm). lia.
    + exact Hss.
    + intros k x Hk Hx.
      rewrite <- (firstn_skipn 10 sorted) in Hss.
      pose proof (StronglySorted_app_inv _ _ _ Hss k x Hk Hx) as L.
      unfold later_first in L. lia.
Qed.

Lemma getPatientHistory_latest_ten_witness :
  ids_increasing (queue (db three_in_a_second)) /\
  exists kept dropped mine,
    getPatientHistory 1 (db three_in_a_second) = map history_view_of kept /\
    map q_token kept = ["GEN003"; "GEN001"] /\
    Permutation (kept ++ dropped) mine /\
    (forall q, In q mine <->
               In q (queue (db three_in_a_second)) /\ q_patient_id q = 1) /\
    NoDup (map q_id mine) /\
    List.length kept = Nat.min 10 (List.length mine) /\
    (List.length mine <= 10 -> dropped = [])%nat /\
    StronglySorted later_first (kept ++ dropped) /\
    (forall k x, In k kept -> In x dropped ->
                 q_registered_at x <= q_registered_at k).
Proof.
  assert (Hinc : ids_increasing (queue (db three_in_a_second))).
  { apply (proj1 getPatientHistory_latest_ten _ initial_world). reflexivity. }
  split; [exact Hinc|].
  destruct (proj2 getPatientHistory_latest_ten 1 (db three_in_a_second) Hinc)
    as (kept & dropped & mine & Hres & Hrest).
  exists kept, dropped, mine. split; [exact Hres|]. split; [|exact Hrest].
  assert (E : map h_token (getPatientHistory 1 (db three_in_a_second))
              = ["GEN003"; "GEN001"]) by reflexivity.
  rewrite Hres, map_map in E. exact E.
Defined.

(** *** Statistics *)

Lemma total_of_add {A : Type} (f g : A -> N) (l : list A) :
  total_of (fun x => f x + g x) l = total_of f l + total_of g l.
Proof.
  unfold total_of. induction l as [|x l IH]; simpl; [reflexivity|].
  rewrite IH. lia.
Qed.

Lemma total_of_ext {A : Type} (f g : A -> N) (l : list A) :
  (forall x, f x = g x) -> total_of f l = total_of g l.
Proof.
  intros H. unfold total_of. induction l as [|x l IH]; simpl; [reflexivity|].
  rewrite IH, H. reflexivity.
Qed.

Lemma total_of_map {A B : Type} (f : B -> N) (g : A -> B) (l : list A) :
  total_of f (map g l) = total_of (fun x => f (g x)) l.
Proof.
  unfold total_of. induction l as [|x l IH]; simpl; [reflexivity|].
  rewrite IH. reflexivity.
Qed.

Lemma total_of_indicator (k : string) (keys : list string) :
  NoDup keys -> In k keys ->
  total_of (fun dep => if String.eqb k dep then 1 else 0) keys = 1.
Proof.
  unfold total_of. induction 1 as [|x keys Hnotin Hnd IH]; simpl; [contradiction|].
  intros [-> | Hin].
  - rewrite String.eqb_refl.
    assert (Z : fold_right (fun x acc => (if String.eqb k x then 1 else 0) + acc) 0 keys = 0).
    { clear -Hnotin. induction keys as [|y keys IH]; simpl; [reflexivity|].
      destruct (String.eqb_spec k y) as [-> | _].
      - exfalso. apply Hnotin. left. reflexivity.
      - rewrite IH; [reflexivity|]. intros H. apply Hnotin. right. exact H. }
    rewrite Z. reflexivity.
  - destruct (String.eqb_spec k x) as [-> | _]; [contradiction|].
    rewrite IH by exact Hin. reflexivity.
Qed.

(** Counting the rows of each department of [keys] counts every row
    once. *)
Lemma total_of_groups (keys : list string) (l : list queue_row) :
  NoDup keys ->
  (forall q, In q l -> In (q_department q) keys) ->
  total_of (fun dep => N.of_nat (List.length
                                   (filter (fun q => String.eqb (q_department q) dep) l)))
           keys
  = N.of_nat (List.length l).
Proof.
  intros Hnd. induction l as [|q l IH]; intros Hin.
  - clear. unfold total_of.
    induction keys as [|k keys IH]; simpl; [reflexivity | exact IH].
  - rewrite (total_of_ext _
               (fun dep => (if String.eqb (q_department q) dep then 1 else 0)
                           + N.of_nat (List.length
                                         (filter (fun q0 => String.eqb (q_department q0) dep) l)))).
    + rewrite total_of_add, IH, total_of_indicator.
      * cbn [List.length]. rewrite Nat2N.inj_succ. lia.
      * exact Hnd.
      * apply Hin. left. reflexivity.
      * intros q' Hq'. apply Hin. right. exact Hq'.
    + intros dep. cbn [filter].
      destruct (String.eqb (q_department q) dep); cbn [List.length];
        rewrite ?Nat2N.inj_succ; lia.
Qed.

Lemma distinct_departments_In (qs : list queue_row) (dep : string) :
  In dep (distinct_departments qs) <-> exists q, In q qs /\ q_department q = dep.
Proof.
  induction qs as [|q qs IH]; simpl.
  - split; [contradiction | intros (q & [] & _)].
  - rewrite filter_In, IH, negb_true_iff. split.
    + intros [<- | ((q' & Hq' & <-) & _)].
      * exists q. auto.
      * exists q'. auto.
    + intros (q' & [-> | Hq'] & <-); [left; reflexivity|].
      destruct (String.eqb_spec (q_department q') (q_department q)) as [E | N].
      * left. symmetry. exact E.
      * right. split; [exists q'; auto | reflexivity].
Qed.

Lemma distinct_departments_NoDup (qs : list queue_row) :
  NoDup (distinct_departments qs).
Proof.
  induction qs as [|q qs IH]; simpl; constructor.
  - intros H. apply filter_In in H. destruct H as [_ H].
    rewrite String.eqb_refl in H. discriminate.
  - apply NoDup_filter. exact IH.
Qed.

Lemma groups_In (qs : list queue_row) (dep : string) :
  In dep (groups qs) <-> exists q, In q qs /\ q_department q = dep.
Proof.
  unfold groups. rewrite order_by_In. apply distinct_departments_In.
Qed.

Lemma groups_NoDup (qs : list queue_row) : NoDup (groups qs).
Proof.
  unfold groups.
  eapply Permutation_NoDup; [symmetry; apply order_by_perm|].
  apply distinct_departments_NoDup.
Qed.

Lemma filter_filter_length {A : Type} (f g : A -> bool) (l : list A) :
  List.length (filter f (filter g l)) = List.length (filter g (filter f l)).
Proof.
  induction l as [|x l IH]; simpl; [reflexivity|].
  destruct (f x) eqn:F, (g x) eqn:G; simpl; rewrite ?F, ?G; simpl; auto.
Qed.

Lemma filter_and_length {A : Type} (f g : A -> bool) (l : list A) :
  List.length (filter (fun x => f x && g x) l) = List.length (filter f (filter g l)).
Proof.
  induction l as [|x l IH]; simpl; [reflexivity|].
  destruct (f x) eqn:F, (g x) eqn:G; simpl; rewrite ?F; simpl; auto.
Qed.

Lemma department_column (P : queue_row -> bool) (rows : list queue_row) :
  total_of (fun dep => count_if P (filter (fun q => String.eqb (q_department q) dep) rows))
           (groups rows)
  = count_if P rows.
Proof.
  unfold count_if.
  rewrite (total_of_ext _
             (fun dep => N.of_nat (List.length
                                     (filter (fun q => String.eqb (q_department q) dep)
                                             (filter P rows))))).
  - apply total_of_groups; [apply groups_NoDup|].
    intros q Hq. apply filter_In in Hq. apply groups_In. exists q. tauto.
  - intros dep. rewrite filter_filter_length. reflexivity.
Qed.

(** X16.  The figures of [getStatistics], taken on one state of the
    store, agree with each other: every department with an entry today
    has exactly one row, the counts of the departments add up to today's
    total, their waiting and completed counts to today's waiting and
    completed, and waiting, in progress and completed together never
    exceed the total; they equal it when every entry of today has one of
    the three statuses. *)
Theorem getStatistics_adds_up now d :
  let s := getStatistics now d in
  let rows := filter (registered_today (date_of now)) (queue d) in
  NoDup (map ds_department (departments s)) /\
  (forall dep, In dep (map ds_department (departments s)) <->
               exists q, In q rows /\ q_department q = dep) /\
  total_of ds_count (departments s) = st_total (today s) /\
  total_of ds_waiting (departments s) = st_waiting (today s) /\
  total_of ds_completed (departments s) = st_completed (today s) /\
  st_waiting (today s) + st_inProgress (today s) + st_completed (today s)
    <= st_total (today s) /\
  (Forall (fun q => q_status q = Some "Waiting" \/ q_status q = Some "In Progress"
                    \/ q_status q = Some "Completed") rows ->
   st_waiting (today s) + st_inProgress (today s) + st_completed (today s)
   = st_total (today s)) /\
  totalPatients s = N.of_nat (List.length (patients d)).
Proof.
  cbv zeta. unfold getStatistics. cbv zeta. cbn [departments today totalPatients
    st_total st_waiting st_inProgress st_completed].
  set (rows := filter (registered_today (date_of now)) (queue d)).
  assert (Hnames : map ds_department (map (department_stat_of rows) (groups rows))
                   = groups rows).
  { rewrite map_map. erewrite map_ext; [apply map_id | reflexivity]. }
  assert (Hcount : forall s, countStatus s (date_of now) d
                             = count_if (fun q => is_status s (q_status q)) rows).
  { intros s. unfold countStatus, count_if, rows. rewrite filter_and_length.
    reflexivity. }
  rewrite Hnames, !Hcount, !total_of_map.
  split; [apply groups_NoDup|]. split; [intros dep; apply groups_In|].
  split; [|split; [|split]].
  - cbn [department_stat_of ds_count]. apply total_of_groups; [apply groups_NoDup|].
    intros q Hq. apply groups_In. exists q. auto.
  - cbn [department_stat_of ds_waiting]. apply department_column.
  - cbn [department_stat_of ds_completed]. apply department_column.
  - unfold count_if. clearbody rows. clear.
    assert (G : forall l : list queue_row,
               N.of_nat (List.length (filter (fun q => is_status "Waiting" (q_status q)) l))
               + N.of_nat (List.length (filter (fun q => is_status "In Progress" (q_status q)) l))
               + N.of_nat (List.length (filter (fun q => is_status "Completed" (q_status q)) l))
               <= N.of_nat (List.length l) /\
               (Forall (fun q => q_status q = Some "Waiting"
                                 \/ q_status q = Some "In Progress"
                                 \/ q_status q = Some "Completed") l ->
                N.of_nat (List.length (filter (fun q => is_status "Waiting" (q_status q)) l))
                + N.of_nat (List.length (filter (fun q => is_status "In Progress" (q_status q)) l))
                + N.of_nat (List.length (filter (fun q => is_status "Completed" (q_status q)) l))
                = N.of_nat (List.length l))).
    { induction l as [|q l [IH1 IH2]]; [split; [simpl; lia | reflexivity]|].
      cbn [filter].
      assert (C : (is_status "Waiting" (q_status q) = true /\
                   is_status "In Progress" (q_status q) = false /\
                   is_status "Completed" (q_status q) = false /\
                   q_status q = Some "Waiting")
                  \/ (is_status "Waiting" (q_status q) = false /\
                      is_status "In Progress" (q_status q) = true /\
                      is_status "Completed" (q_status q) = false /\
                      q_status q = Some "In Progress")
                  \/ (is_status "Waiting" (q_status q) = false /\
                      is_status "In Progress" (q_status q) = false /\
                      is_status "Completed" (q_status q) = true /\
                      q_status q = Some "Completed")
                  \/ (is_status "Waiting" (q_status q) = false /\
                      is_status "In Progress" (q_status q) = false /\
                      is_status "Completed" (q_status q) = false)).
      { destruct (is_status "Waiting" (q_status q)) eqn:E1.
        - apply is_status_true in E1. rewrite E1. simpl. auto.
        - destruct (is_status "In Progress" (q_status q)) eqn:E2.
          + apply is_status_true in E2. rewrite E2. simpl. auto 10.
          + destruct (is_status "Completed" (q_status q)) eqn:E3.
            * apply is_status_true in E3. rewrite E3. simpl. auto 10.
            * auto 10. }
      split.
      - destruct C as [(-> & -> & -> & _) | [(-> & -> & -> & _) | [(-> & -> & -> & _) | (-> & -> & ->)]]];
          cbn [List.length]; rewrite ?Nat2N.inj_succ; lia.
      - intros HF. inversion HF as [|? ? Hq Hl]; subst. specialize (IH2 Hl).
        destruct C as [(-> & -> & -> & _) | [(-> & -> & -> & _) | [(-> & -> & -> & _) | (E1 & E2 & E3)]]];
          cbn [List.length]; rewrite ?Nat2N.inj_succ; try lia.
        exfalso. apply is_status_false in E1, E2, E3. tauto. }
    split; [apply G | split; [apply G | reflexivity]].
Qed.

Lemma getStatistics_adds_up_witness :
  let s := getStatistics (nine + 5000) (db after_done) in
  st_waiting (today s) + st_inProgress (today s) + st_completed (today s)
  = st_total (today s).
Proof.
  pose proof (getStatistics_adds_up (nine + 5000) (db after_done)) as H.
  cbv zeta in H. destruct H as (_ & _ & _ & _ & _ & _ & H & _).
  apply H. vm_compute.
  repeat (apply Forall_cons; [auto 6|]). apply Forall_nil.
Defined.

(** *** The set of clients *)

Lemma set_add_In (c x : N) (s : list N) : In x (set_add c s) <-> x = c \/ In x s.
Proof.
  unfold set_add. destruct (existsb (N.eqb c) s) eqn:E.
  - split; [auto|]. intros [-> | H]; [|exact H].
    apply existsb_exists in E. destruct E as (y & Hy & Ey).
    apply N.eqb_eq in Ey. subst y. exact Hy.
  - rewrite in_app_iff. simpl. intuition.
Qed.

Lemma set_add_NoDup (c : N) (s : list N) : NoDup s -> NoDup (set_add c s).
Proof.
  intros H. unfold set_add. destruct (existsb (N.eqb c) s) eqn:E; [exact H|].
  apply NoDup_app; [exact H | repeat constructor; auto |].
  intros x Hx [Ex | []]. subst x.
  assert (T : existsb (N.eqb c) s = true).
  { apply existsb_exists. exists c. split; [exact Hx | apply N.eqb_refl]. }
  congruence.
Qed.

Lemma set_delete_fresh (c : N) (s : list N) : ~ In c s -> set_delete c s = s.
Proof.
  unfold set_delete. induction s as [|x s IH]; simpl; intros H; [reflexivity|].
  destruct (N.eqb_spec x c) as [-> | _]; simpl.
  - exfalso. apply H. left. reflexivity.
  - rewrite IH; [reflexivity|]. intros Hin. apply H. right. exact Hin.
Qed.

Lemma handle_clients r w : clients (snd (handle r w)) = clients w.
Proof.
  destruct r as [req clk | i st now]; simpl.
  - destruct (register req clk w) as [answer w'] eqn:Hreg. simpl.
    destruct answer as [token position ir vc pid| |e].
    + apply register_ok_inv in Hreg.
      destruct Hreg as (dep & pt & w1 & _ & _ & _ & _ & _ & _ & _ & _ & _ & _ & Hc & _).
      exact Hc.
    + exfalso. exact (register_not_StatusOk _ _ _ _ Hreg).
    + apply register_failure_inv in Hreg. tauto.
  - rewrite put_status_unfold. reflexivity.
Qed.

(** X17.  The clients are kept as a set.  A socket that connects is in
    the set, once, however often it is added, and the other members stay;
    a socket that connects and then closes leaves the set as it was; no
    route adds or removes a client; and a broadcast hands each client at
    most one frame. *)
Theorem clients_are_kept_as_a_set :
  (forall c w,
      In c (clients (on_connection c w)) /\
      (forall x, In x (clients (on_connection c w)) <-> x = c \/ In x (clients w)) /\
      clients (on_connection c (on_connection c w)) = clients (on_connection c w))
  /\
  (forall c w,
      NoDup (clients w) ->
      NoDup (clients (on_connection c w)) /\
      NoDup (clients (on_close c w)) /\ NoDup (clients (on_error c w)))
  /\
  (forall c w,
      ~ In c (clients w) ->
      clients (on_close c (on_connection c w)) = clients w /\
      clients (on_error c (on_connection c w)) = clients w)
  /\
  (forall rs w, clients (run rs w) = clients w)
  /\
  (forall msg w,
      NoDup (clients w) -> NoDup (map fst (frames msg w (clients w)))).
Proof.
  split; [|split; [|split; [|split]]].
  - intros c w. unfold on_connection. simpl.
    assert (Hin : In c (set_add c (clients w))) by (apply set_add_In; auto).
    split; [exact Hin|]. split; [intros x; apply set_add_In|].
    unfold set_add at 1.
    assert (E : existsb (N.eqb c) (set_add c (clients w)) = true).
    { apply existsb_exists. exists c. split; [exact Hin | apply N.eqb_refl]. }
    rewrite E. reflexivity.
  - intros c w H. unfold on_connection, on_close, on_error, set_delete. simpl.
    split; [apply set_add_NoDup, H|]. split; apply NoDup_filter, H.
  - intros c w H. unfold on_connection, on_close, on_error. simpl.
    assert (E : set_delete c (set_add c (clients w)) = clients w).
    { unfold set_add.
      destruct (existsb (N.eqb c) (clients w)) eqn:X.
      - exfalso. apply H. apply existsb_exists in X. destruct X as (y & Hy & Ey).
        apply N.eqb_eq in Ey. subst y. exact Hy.
      - unfold set_delete. rewrite filter_app. simpl. rewrite N.eqb_refl. simpl.
        rewrite List.app_nil_r. apply set_delete_fresh. exact H. }
    auto.
  - intros rs. induction rs as [|r rs IH]; intros w; simpl; [reflexivity|].
    rewrite IH. apply handle_clients.
  - intros msg w H. unfold frames, open_among. rewrite map_map. simpl.
    rewrite map_id. apply NoDup_filter, H.
Qed.

Lemma clients_are_kept_as_a_set_witness :
  (NoDup (clients (on_connection 2 one_viewer)) /\
   NoDup (clients (on_close 2 one_viewer)) /\
   NoDup (clients (on_error 2 one_viewer)))
  /\
  (clients (on_close 2 (on_connection 2 one_viewer)) = clients one_viewer /\
   clients (on_error 2 (on_connection 2 one_viewer)) = clients one_viewer)
  /\
  NoDup (map fst (frames (STATUS_UPDATE 1 None) one_viewer (clients one_viewer))).
Proof.
  assert (H : NoDup (clients one_viewer)) by (repeat constructor; simpl; tauto).
  split; [|split].
  - apply (proj1 (proj2 clients_are_kept_as_a_set) 2 one_viewer H).
  - apply (proj1 (proj2 (proj2 clients_are_kept_as_a_set)) 2 one_viewer).
    simpl. intros [E | []]. discriminate.
  - apply (proj2 (proj2 (proj2 (proj2 clients_are_kept_as_a_set)))
             (STATUS_UPDATE 1 None) one_viewer H).
Defined.

(** *** Status updates and the position *)

Lemma position_after_update (f : queue_row -> bool) (g : queue_row -> queue_row)
    (i : N) (l : list queue_row) (e : queue_row) :
  NoDup (map q_id l) ->
  find (fun r => q_id r =? i) l = Some e ->
  Nat.add (List.length (filter f (map (fun r => if q_id r =? i then g r else r) l)))
          (if f e then 1%nat else 0%nat)
  = Nat.add (List.length (filter f l)) (if f (g e) then 1%nat else 0%nat).
Proof.
  induction l as [|x l IH]; simpl; intros Hnd Hfind; [discriminate|].
  inversion Hnd as [|? ? Hnotin Hnd']; subst.
  destruct (q_id x =? i) eqn:E.
  - injection Hfind as ->. apply N.eqb_eq in E.
    assert (Hnone : find (fun r => q_id r =? i) l = None).
    { destruct (find (fun r => q_id r =? i) l) as [y|] eqn:F; [|reflexivity].
      apply find_some in F. destruct F as [Hin Hy]. apply N.eqb_eq in Hy.
      exfalso. apply Hnotin. rewrite E, <- Hy. apply in_map. exact Hin. }
    rewrite (map_miss_id i g l Hnone).
    destruct (f e), (f (g e)); simpl; lia.
  - specialize (IH Hnd' Hfind). destruct (f x); simpl; lia.
Qed.

(** X18.  Calling or completing an entry moves up those behind it.
    With distinct queue ids, a status update that takes an entry out of
    Waiting lowers by exactly one the position [getQueuePosition] gives
    every token the entry was counted ahead of, and leaves the position
    of every other token; an update for an id that names no entry leaves
    every position. *)
Theorem leaving_waiting_moves_the_queue w i st t token dep now :
  ids_fresh w ->
  st <> Some "Waiting" ->
  let w' := snd (put_status i st t w) in
  match find_entry i w with
  | Some e =>
      if ahead_of dep token (date_of now) e
      then getQueuePosition token (Some dep) now (db w') + 1
           = getQueuePosition token (Some dep) now (db w)
      else getQueuePosition token (Some dep) now (db w')
           = getQueuePosition token (Some dep) now (db w)
  | None =>
      getQueuePosition token (Some dep) now (db w')
      = getQueuePosition token (Some dep) now (db w)
  end.
Proof.
  intros [Hnd _] Hst. cbv zeta.
  rewrite put_status_unfold. unfold getQueuePosition, find_entry, updateQueueStatus.
  cbn [snd db queue].
  destruct (find (fun r => q_id r =? i) (queue (db w))) as [e|] eqn:F.
  - pose proof (position_after_update (ahead_of dep token (date_of now))
                  (set_status st t) i _ e Hnd F) as H.
    assert (G : ahead_of dep token (date_of now) (set_status st t e) = false).
    { unfold ahead_of. rewrite set_status_status.
      apply is_status_false in Hst. rewrite Hst.
      rewrite andb_false_r. reflexivity. }
    rewrite G in H.
    destruct (ahead_of dep token (date_of now) e); lia.
  - rewrite (map_miss_id i _ _ F). reflexivity.
Qed.

Lemma leaving_waiting_moves_the_queue_witness :
  getQueuePosition "GEN002" (Some "GEN") (nine + 3000)
    (db (snd (put_status 1 (Some "In Progress") (nine + 2000) after_B))) + 1
  = getQueuePosition "GEN002" (Some "GEN") (nine + 3000) (db after_B).
Proof.
  assert (F : ids_fresh after_B).
  { split; [repeat constructor; simpl; intuition discriminate|].
    repeat constructor; apply N.leb_le; reflexivity. }
  assert (S : Some "In Progress" <> Some "Waiting") by discriminate.
  exact (leaving_waiting_moves_the_queue after_B 1 (Some "In Progress")
           (nine + 2000) "GEN002" "GEN" (nine + 3000) F S).
Defined.
